(** * Web file manager: the browser client

    A shallow embedding of the TypeScript client of the web file manager:
    the REST client ([web/src/api/client.ts], [web/src/api/types.ts]), the
    page ([web/src/App.tsx]) and what the page needs of its components
    ([Toolbar], [FileList], [UploadDropzone]), together with the properties
    the specification states about them.

    Strings are sequences of bytes (the UTF-8 encoding of the JavaScript
    string); the separator ['/'] and every character the client inspects are
    ASCII, so splitting, joining and escaping act on bytes exactly as they
    act on the JavaScript string.  Handlers run one after the other, each to
    its end.

    The program is modelled at its TypeScript types.  A success body that
    does not have the type the client casts it to takes the run out of the
    typed program ([IllTyped]); what is stated about the page is stated for
    servers whose success bodies have the declared types ([typed_server]),
    or does not depend on the body at all. *)

From Stdlib Require Import String Ascii List Bool ZArith Lia Arith.
Import ListNotations.
Local Open Scope list_scope.
Local Open Scope string_scope.

(** ** JavaScript strings and arrays of strings *)

Module Js.

(** [Boolean(s)] on a string: only the empty string is falsy. *)
Definition truthy (s : string) : bool :=
  match s with
  | EmptyString => false
  | String _ _ => true
  end.

(** [s.split(sep)] for a one-character separator. *)
Fixpoint split (sep : ascii) (s : string) : list string :=
  match s with
  | EmptyString => [EmptyString]
  | String c rest =>
      if Ascii.eqb c sep then EmptyString :: split sep rest
      else match split sep rest with
           | [] => [String c EmptyString]
           | piece :: pieces => String c piece :: pieces
           end
  end.

(** [xs.join(sep)]. *)
Fixpoint join (sep : string) (xs : list string) : string :=
  match xs with
  | [] => EmptyString
  | x :: rest =>
      match rest with
      | [] => x
      | _ :: _ => x ++ sep ++ join sep rest
      end
  end.

(** [xs.filter(Boolean)]. *)
Definition filter_Boolean (xs : list string) : list string :=
  filter truthy xs.

(** [xs.pop()], for its effect on the array. *)
Definition pop (xs : list string) : list string := removelast xs.

(** [xs.slice(0, n)]. *)
Definition slice0 (n : nat) (xs : list string) : list string := firstn n xs.

(** [s.replace(/\/$/, empty)]: one trailing slash is dropped. *)
Fixpoint strip_trailing_slash (s : string) : string :=
  match s with
  | EmptyString => EmptyString
  | String c rest =>
      match rest with
      | EmptyString => if Ascii.eqb c "/" then EmptyString else s
      | String _ _ => String c (strip_trailing_slash rest)
      end
  end.

(** [c] occurs in [s]. *)
Fixpoint occurs (c : ascii) (s : string) : bool :=
  match s with
  | EmptyString => false
  | String d rest => Ascii.eqb d c || occurs c rest
  end.

End Js.

(** The segments of a path as the client computes them:
    [path.split("/").filter(Boolean)]. *)
Definition segments (path : string) : list string :=
  Js.filter_Boolean (Js.split "/" path).

(** A single well-formed name: non-empty and free of the separator. *)
Definition segment_ok (s : string) : bool :=
  Js.truthy s && negb (Js.occurs "/" s).

(** A name that is neither [.] nor [..]. *)
Definition not_dot (s : string) : bool :=
  negb (String.eqb s ".") && negb (String.eqb s "..").

(** ** JSON values

    What [response.json()] yields and what [JSON.stringify] prints.  A
    number is kept as the decimal text JavaScript prints for it; an object
    holds its own properties in enumeration order (keys distinct). *)

#[warnings="-register-all"]
Inductive json : Type :=
| JNull
| JBool (b : bool)
| JNum (text : string)
| JStr (s : string)
| JArr (items : list json)
| JObj (props : list (string * json)).

Module Json.

Definition quote_char : ascii := "034"%char.
Definition backslash : ascii := "092"%char.

(** The sixteen hexadecimal digits. *)
Definition hex_digit (upper : bool) (n : nat) : ascii :=
  if Nat.ltb n 10 then ascii_of_nat (48 + n)
  else ascii_of_nat ((if upper then 55 else 87) + n).

(** Own-property lookup in an object. *)
Fixpoint assoc (k : string) (props : list (string * json)) : option json :=
  match props with
  | [] => None
  | (k', v) :: rest => if String.eqb k' k then Some v else assoc k rest
  end.

(** [String(v)] for a parsed JSON value, as [new Error(v)] applies it. *)
Fixpoint to_string (v : json) : string :=
  match v with
  | JNull => "null"
  | JBool true => "true"
  | JBool false => "false"
  | JNum text => text
  | JStr s => s
  | JArr items =>
      Js.join ","
        (map (fun x => match x with
                       | JNull => EmptyString
                       | _ => to_string x
                       end) items)
  | JObj _ => "[object Object]"
  end.

(** The escape [JSON.stringify] writes for one character of a string. *)
Definition escape (c : ascii) : string :=
  let n := nat_of_ascii c in
  if Ascii.eqb c quote_char then String backslash (String quote_char EmptyString)
  else if Ascii.eqb c backslash then String backslash (String backslash EmptyString)
  else if Nat.eqb n 8 then String backslash "b"
  else if Nat.eqb n 9 then String backslash "t"
  else if Nat.eqb n 10 then String backslash "n"
  else if Nat.eqb n 12 then String backslash "f"
  else if Nat.eqb n 13 then String backslash "r"
  else if Nat.ltb n 32 then
    String backslash
      ("u00" ++ String (hex_digit false (n / 16))
                  (String (hex_digit false (n mod 16)) EmptyString))
  else String c EmptyString.

Fixpoint escape_all (s : string) : string :=
  match s with
  | EmptyString => EmptyString
  | String c rest => escape c ++ escape_all rest
  end.

(** A string literal of JSON text. *)
Definition quote (s : string) : string :=
  String quote_char (escape_all s ++ String quote_char EmptyString).

(** [JSON.stringify(v)]. *)
Fixpoint stringify (v : json) : string :=
  match v with
  | JNull => "null"
  | JBool true => "true"
  | JBool false => "false"
  | JNum text => text
  | JStr s => quote s
  | JArr items => "[" ++ Js.join "," (map stringify items) ++ "]"
  | JObj props =>
      "{" ++ Js.join ","
               (map (fun kv => match kv with
                               | (k, x) => quote k ++ ":" ++ stringify x
                               end) props) ++ "}"
  end.

End Json.

(** The cast [as T] of a parsed body.  TypeScript does not check it; a body
    of another shape leaves the typed program, which [None] records. *)
Class FromJSON (T : Type) : Type := from_json : json -> option T.

#[export] Instance FromJSON_unknown : FromJSON json := fun v => Some v.

#[export] Instance FromJSON_string : FromJSON string :=
  fun v => match v with JStr s => Some s | _ => None end.

#[export] Instance FromJSON_boolean : FromJSON bool :=
  fun v => match v with JBool b => Some b | _ => None end.

Fixpoint from_json_all {T : Type} (f : json -> option T) (items : list json)
  : option (list T) :=
  match items with
  | [] => Some []
  | x :: rest =>
      match f x, from_json_all f rest with
      | Some a, Some l => Some (a :: l)
      | _, _ => None
      end
  end.

#[export] Instance FromJSON_array {T : Type} `{FromJSON T} : FromJSON (list T) :=
  fun v => match v with
           | JArr items => from_json_all from_json items
           | _ => None
           end.

(** ** [api/types.ts] *)

Module FileItem.
Record t : Type := mk {
  name : string;
  path : string;
  is_dir : bool;
  size : string;             (* a number, by its decimal text *)
  modified : string;
  mime_type : option string  (* absent or null: [None] *)
}.
End FileItem.

Module DirectoryListing.
Record t : Type := mk {
  path : string;
  parent : option string;    (* [string | null] *)
  items : list FileItem.t
}.
End DirectoryListing.

(** A required field of an object, cast to [T]. *)
Definition field {T : Type} `{FromJSON T} (k : string) (props : list (string * json))
  : option T :=
  match Json.assoc k props with
  | Some v => from_json v
  | None => None
  end.

(** A field of type [string | null], possibly optional. *)
Definition nullable_field (optional : bool) (k : string)
  (props : list (string * json)) : option (option string) :=
  match Json.assoc k props with
  | Some JNull => Some None
  | Some (JStr s) => Some (Some s)
  | Some _ => None
  | None => if optional then Some None else None
  end.

Definition number_field (k : string) (props : list (string * json)) : option string :=
  match Json.assoc k props with
  | Some (JNum text) => Some text
  | _ => None
  end.

#[export] Instance FromJSON_FileItem : FromJSON FileItem.t :=
  fun v =>
    match v with
    | JObj props =>
        match field "name" props, field "path" props, field "is_dir" props,
              number_field "size" props, field "modified" props,
              nullable_field true "mime_type" props with
        | Some n, Some p, Some d, Some s, Some m, Some mt =>
            Some (FileItem.mk n p d s m mt)
        | _, _, _, _, _, _ => None
        end
    | _ => None
    end.

#[export] Instance FromJSON_DirectoryListing : FromJSON DirectoryListing.t :=
  fun v =>
    match v with
    | JObj props =>
        match field "path" props, nullable_field false "parent" props,
              field "items" props with
        | Some p, Some par, Some its => Some (DirectoryListing.mk p par its)
        | _, _, _ => None
        end
    | _ => None
    end.

(** The success body of an upload, [{ uploaded: string[] }]. *)
Record UploadResult : Type := { uploaded : list string }.

#[export] Instance FromJSON_UploadResult : FromJSON UploadResult :=
  fun v =>
    match v with
    | JObj props =>
        match field "uploaded" props with
        | Some names => Some {| uploaded := names |}
        | None => None
        end
    | _ => None
    end.


(** ** The browser's interfaces: fetch, forms, query strings *)

Inductive method : Type := GET | POST | PATCH | DELETE.

Record File : Type := { file_name : string; file_bytes : string }.

(** A [FileList] is a distinct array-like object, not an array. *)
Record FileList : Type := { FileList_items : list File }.

Inductive form_value : Type :=
| FormFile (f : File)
| FormText (s : string).

(** [FormData]: its entries, in the order they were appended. *)
Definition FormData : Type := list (string * form_value).

Definition FormData_append (fd : FormData) (name : string) (v : form_value)
  : FormData :=
  (fd ++ [(name, v)])%list.

Inductive body_init : Type :=
| BodyText (s : string)
| BodyForm (fd : FormData).

Record RequestInit : Type := {
  init_method : option method;
  init_headers : list (string * string);
  init_body : option body_init
}.

(** What one call of [fetch] puts on the wire. *)
Record http_request : Type := {
  req_url : string;
  req_method : method;
  req_headers : list (string * string);
  req_body : option body_init
}.

(** [fetch(url, init)]: the method defaults to GET. *)
Definition make_request (url : string) (init : option RequestInit) : http_request :=
  match init with
  | None => {| req_url := url; req_method := GET; req_headers := []; req_body := None |}
  | Some i =>
      {| req_url := url;
         req_method := match init_method i with Some m => m | None => GET end;
         req_headers := init_headers i;
         req_body := init_body i |}
  end.

(** The outcome of parsing a response body as JSON; a failure carries the
    message of the [SyntaxError] the engine raises. *)
Inductive parse_result : Type :=
| Parsed (v : json)
| Unparseable (why : string).

Record Response : Type := {
  status : Z;
  statusText : string;
  body : parse_result
}.

(** [response.ok]: the status is in the range 200-299. *)
Definition ok (r : Response) : bool :=
  ((200 <=? status r) && (status r <=? 299))%Z.

Inductive fetch_result : Type :=
| Responded (r : Response)
| Rejected (why : string).

Module URLSearchParams.

Definition t : Type := list (string * string).

Definition empty : t := [].

(** [search.set(name, value)]. *)
Fixpoint set (search : t) (name value : string) : t :=
  match search with
  | [] => [(name, value)]
  | (k, v) :: rest =>
      if String.eqb k name
      then (name, value) :: filter (fun kv => negb (String.eqb (fst kv) name)) rest
      else (k, v) :: set rest name value
  end.

(** Bytes the form-urlencoded serializer leaves as they are. *)
Definition unreserved (c : ascii) : bool :=
  let n := nat_of_ascii c in
  (Nat.leb 48 n && Nat.leb n 57) || (Nat.leb 65 n && Nat.leb n 90)
  || (Nat.leb 97 n && Nat.leb n 122)
  || Ascii.eqb c "*" || Ascii.eqb c "-" || Ascii.eqb c "." || Ascii.eqb c "_".

Definition encode_byte (c : ascii) : string :=
  if unreserved c then String c EmptyString
  else if Ascii.eqb c " " then "+"
  else
    let n := nat_of_ascii c in
    String "%" (String (Json.hex_digit true (n / 16))
                  (String (Json.hex_digit true (n mod 16)) EmptyString)).

Fixpoint encode (s : string) : string :=
  match s with
  | EmptyString => EmptyString
  | String c rest => encode_byte c ++ encode rest
  end.

(** [search.toString()]. *)
Definition toString (search : t) : string :=
  Js.join "&" (map (fun kv => encode (fst kv) ++ "=" ++ encode (snd kv)) search).

End URLSearchParams.

(** ** Component state and the world a handler runs in *)

(** The five [useState] cells of [App]. *)
Module AppState.
Record t : Type := mk {
  currentPath : string;
  listing : option DirectoryListing.t;
  loading : bool;
  error : option string;
  status : option string
}.

Definition initial : t :=
  {| currentPath := EmptyString; listing := None; loading := false;
     error := None; status := None |}.
End AppState.

(** The requests sent so far, oldest first, and the component state. *)
Record World : Type := {
  sent : list http_request;
  ui : AppState.t
}.

Inductive js_error : Type :=
| Error (message : string)
| TypeError (message : string)
| SyntaxError (message : string).

(** [err.message]. *)
Definition message_of (e : js_error) : string :=
  match e with
  | Error m | TypeError m | SyntaxError m => m
  end.

(** How an asynchronous computation ends: it resolves, it rejects, or an
    unchecked cast met a value outside its type. *)
Inductive outcome (A : Type) : Type :=
| Ok (a : A)
| Throw (e : js_error)
| IllTyped.
Arguments Ok {A} a.
Arguments Throw {A} e.
Arguments IllTyped {A}.

Definition M (A : Type) : Type := World -> World * outcome A.

Definition ret {A : Type} (a : A) : M A := fun w => (w, Ok a).

Definition bind {A B : Type} (c : M A) (k : A -> M B) : M B :=
  fun w =>
    match c w with
    | (w', Ok a) => k a w'
    | (w', Throw e) => (w', Throw e)
    | (w', IllTyped) => (w', IllTyped)
    end.

Definition throw {A : Type} (e : js_error) : M A := fun w => (w, Throw e).

Definition lift {A : Type} (o : outcome A) : M A := fun w => (w, o).

(** [try { c } catch (err) { h err }], also [promise.catch(h)]. *)
Definition try_catch {A : Type} (c : M A) (h : js_error -> M A) : M A :=
  fun w =>
    match c w with
    | (w', Throw e) => h e w'
    | r => r
    end.

(** [try { c } finally { f }]: [f] runs however [c] ended. *)
Definition try_finally {A : Type} (c : M A) (f : M unit) : M A :=
  fun w =>
    match c w with
    | (w', r) =>
        match f w' with
        | (w'', Ok _) => (w'', r)
        | (w'', Throw e) => (w'', Throw e)
        | (w'', IllTyped) => (w'', IllTyped)
        end
    end.

Declare Scope js_scope.
Delimit Scope js_scope with js.
Notation "x <- c ;; k" := (bind c (fun x => k))
  (at level 61, c at next level, right associativity) : js_scope.
Notation "c ;; k" := (bind c (fun _ => k))
  (at level 61, right associativity) : js_scope.
Local Open Scope js_scope.

(** [xs.forEach(f)], threading what [f] mutates. *)
Definition forEach {A S : Type} (xs : list A) (f : S -> A -> S) (s : S) : S :=
  fold_left f xs s.

(** [Array.from(files)]. *)
Definition Array_from (files : FileList) : list File := FileList_items files.

(** [v.k] on a parsed value: reading a property of [null] throws. *)
Definition get_prop (v : json) (k : string) : outcome (option json) :=
  match v with
  | JNull => Throw (TypeError ("Cannot read properties of null (reading '" ++ k ++ "')"))
  | JObj props => Ok (Json.assoc k props)
  | _ => Ok None
  end.

(** [x ?? d]: [d] replaces [undefined] and [null]. *)
Definition nullish (x : option json) (d : json) : json :=
  match x with
  | None | Some JNull => d
  | Some v => v
  end.

(** [s ?? d] where [s] has the type [string]: a string is never [null]
    or [undefined], so the default does not apply. *)
Definition nullish_string (s d : string) : string := s.

(** [response.json()]. *)
Definition response_json (r : Response) : M json :=
  match body r with
  | Parsed v => ret v
  | Unparseable why => throw (SyntaxError why)
  end.

(** The cast [as T].  TypeScript takes the body for a [T] without a
    check.  A body of the declared type is that [T]; with any other body
    the program is no longer the typed one, and the run is marked
    [IllTyped]: nothing is stated about the page from there on. *)
Definition cast {T : Type} `{FromJSON T} (v : json) : M T :=
  match from_json v with
  | Some x => ret x
  | None => lift IllTyped
  end.

(** The second argument of [uploadFiles], [FileList | File[]]. *)
Inductive upload_files : Type :=
| OfFileList (files : FileList)
| OfArray (files : list File).

(** ** [api/client.ts] *)

Section Client.

(** The build-time setting [import.meta.env.VITE_API_BASE]. *)
Variable VITE_API_BASE : option string.

(** The network: what the server answers to a request, given the
    requests it has already seen. *)
Variable server : list http_request -> http_request -> fetch_result.

Definition API_BASE : string :=
  match VITE_API_BASE with
  | Some base => Js.strip_trailing_slash base
  | None => EmptyString
  end.

Definition fetch (url : string) (init : option RequestInit) : M Response :=
  fun w =>
    let req := make_request url init in
    let w' := {| sent := (sent w ++ [req])%list; ui := ui w |} in
    match server (sent w) req with
    | Responded r => (w', Ok r)
    | Rejected why => (w', Throw (TypeError why))
    end.

Definition request {T : Type} `{FromJSON T} (input : string)
  (init : option RequestInit) : M T :=
  response <- fetch (API_BASE ++ input) init ;;
  if negb (ok response) then
    message <- try_catch (response_json response)
                 (fun _ => ret (JObj [("detail", JStr (statusText response))])) ;;
    detail <- lift (get_prop message "detail") ;;
    throw (Error (Json.to_string (nullish detail (JStr "Request failed"))))
  else
    data <- response_json response ;;
    cast data.

Definition getDirectory (path : string) : M DirectoryListing.t :=
  let search := URLSearchParams.empty in
  let search :=
    if Js.truthy path then URLSearchParams.set search "path" path else search in
  request ("/api/files?" ++ URLSearchParams.toString search) None.

Definition uploadFiles (path : string) (files : upload_files) : M (list string) :=
  let formData : FormData := [] in
  let formData :=
    match files with
    | OfFileList fl =>
        forEach (Array_from fl)
          (fun fd file => FormData_append fd "files" (FormFile file)) formData
    | OfArray fs =>
        forEach fs
          (fun fd file => FormData_append fd "files" (FormFile file)) formData
    end in
  let formData := FormData_append formData "destination" (FormText path) in
  response <- fetch (API_BASE ++ "/api/files/upload")
                (Some {| init_method := Some POST; init_headers := [];
                         init_body := Some (BodyForm formData) |}) ;;
  if negb (ok response) then
    error <- try_catch (response_json response)
               (fun _ => ret (JObj [("detail", JStr (statusText response))])) ;;
    detail <- lift (get_prop error "detail") ;;
    throw (Error (Json.to_string (nullish detail (JStr "Upload failed"))))
  else
    json_data <- response_json response ;;
    data <- cast json_data ;;
    ret (uploaded data).

Definition createFolder (parent name : string) : M unit :=
  _ <- request (T := json) "/api/files/folder"
         (Some {| init_method := Some POST;
                  init_headers := [("Content-Type", "application/json")];
                  init_body :=
                    Some (BodyText (Json.stringify
                            (JObj [("parent", JStr parent); ("name", JStr name)]))) |}) ;;
  ret tt.

Definition renamePath (current_path new_path : string) : M unit :=
  _ <- request (T := json) "/api/files/rename"
         (Some {| init_method := Some PATCH;
                  init_headers := [("Content-Type", "application/json")];
                  init_body :=
                    Some (BodyText (Json.stringify
                            (JObj [("current_path", JStr current_path);
                                   ("new_path", JStr new_path)]))) |}) ;;
  ret tt.

Definition deletePath (path : string) : M unit :=
  let search : URLSearchParams.t := [("path", path)] in
  _ <- request (T := json) ("/api/files?" ++ URLSearchParams.toString search)
         (Some {| init_method := Some DELETE; init_headers := [];
                  init_body := None |}) ;;
  ret tt.

Definition downloadUrl (path : string) : string :=
  let search : URLSearchParams.t := [("path", path)] in
  API_BASE ++ "/api/files/download?" ++ URLSearchParams.toString search.

End Client.


(** ** [App.tsx] and its components *)

Definition setState (f : AppState.t -> AppState.t) : M unit :=
  fun w => ({| sent := sent w; ui := f (ui w) |}, Ok tt).

Definition setCurrentPath (v : string) : M unit :=
  setState (fun s => AppState.mk v (AppState.listing s) (AppState.loading s)
                       (AppState.error s) (AppState.status s)).

Definition setListing (v : option DirectoryListing.t) : M unit :=
  setState (fun s => AppState.mk (AppState.currentPath s) v (AppState.loading s)
                       (AppState.error s) (AppState.status s)).

Definition setLoading (v : bool) : M unit :=
  setState (fun s => AppState.mk (AppState.currentPath s) (AppState.listing s) v
                       (AppState.error s) (AppState.status s)).

Definition setError (v : option string) : M unit :=
  setState (fun s => AppState.mk (AppState.currentPath s) (AppState.listing s)
                       (AppState.loading s) v (AppState.status s)).

Definition setStatus (v : option string) : M unit :=
  setState (fun s => AppState.mk (AppState.currentPath s) (AppState.listing s)
                       (AppState.loading s) (AppState.error s) v).

(** A name between double quotes, as the status messages show it. *)
Definition quoted (s : string) : string :=
  String Json.quote_char (s ++ String Json.quote_char EmptyString).

(** [xs.map((x, index) => f x index)]. *)
Fixpoint map_index_from {A B : Type} (i : nat) (f : A -> nat -> B) (xs : list A)
  : list B :=
  match xs with
  | [] => []
  | x :: rest => f x i :: map_index_from (S i) f rest
  end.

Definition map_index {A B : Type} (f : A -> nat -> B) (xs : list A) : list B :=
  map_index_from 0 f xs.

(** What [Toolbar] shows: whether "Up One Level" is disabled, and the path
    line. *)
Record ToolbarView : Type := {
  up_disabled : bool;
  path_line : string
}.

Definition Toolbar (currentPath : string) (isRoot : bool) : ToolbarView :=
  let crumbs := if Js.truthy currentPath then segments currentPath else [] in
  {| up_disabled := isRoot;
     path_line :=
       "Path: /" ++ (if Js.truthy (Js.join "/" crumbs) then Js.join "/" crumbs
                     else EmptyString) |}.

(** A breadcrumb button: its label and the path its click navigates to. *)
Record Crumb : Type := { crumb_label : string; crumb_target : string }.

Section App.

Variable VITE_API_BASE : option string.
Variable server : list http_request -> http_request -> fetch_result.

(** One render of the component: the handlers close over the state of
    that render. *)
Section Render.

Variable currentPath : string.
Variable listing : option DirectoryListing.t.

(** [refresh(path = currentPath)]; [None] is the omitted argument. *)
Definition refresh (path : option string) : M unit :=
  let path := match path with Some p => p | None => currentPath end in
  setLoading true ;;
  setError None ;;
  try_finally
    (try_catch
       (data <- getDirectory VITE_API_BASE server path ;;
        setListing (Some data) ;;
        setCurrentPath (nullish_string (DirectoryListing.path data) EmptyString))
       (fun err => setError (Some (message_of err))))
    (setLoading false).

Definition navigateTo (path : string) : M unit := refresh (Some path).

(** [prompt] is what [window.prompt] returned: [None] when cancelled. *)
Definition handleCreateFolder (prompt : option string) : M unit :=
  match prompt with
  | None => ret tt
  | Some name =>
      if negb (Js.truthy name) then ret tt
      else
        try_catch
          (createFolder VITE_API_BASE server currentPath name ;;
           setStatus (Some ("Created folder " ++ quoted name)) ;;
           refresh None)
          (fun err => setError (Some (message_of err)))
  end.

Definition handleDelete (item : FileItem.t) (confirmed : bool) : M unit :=
  if negb confirmed then ret tt
  else
    try_catch
      (deletePath VITE_API_BASE server (FileItem.path item) ;;
       setStatus (Some ("Deleted " ++ quoted (FileItem.name item))) ;;
       refresh None)
      (fun err => setError (Some (message_of err))).

Definition handleRename (item : FileItem.t) (prompt : option string) : M unit :=
  let parentSegments := Js.filter_Boolean (Js.split "/" (FileItem.path item)) in
  let parentSegments := Js.pop parentSegments in
  let parent := Js.join "/" parentSegments in
  match prompt with
  | None => ret tt
  | Some newName =>
      if negb (Js.truthy newName) || String.eqb newName (FileItem.name item)
      then ret tt
      else
        let targetPath := Js.join "/" (Js.filter_Boolean [parent; newName]) in
        try_catch
          (renamePath VITE_API_BASE server (FileItem.path item) targetPath ;;
           setStatus (Some ("Renamed to " ++ quoted newName)) ;;
           refresh None)
          (fun err => setError (Some (message_of err)))
  end.

Definition handleUploadComplete : M unit :=
  setStatus (Some "Upload complete") ;;
  refresh None.

Definition handleError (message : string) : M unit :=
  setError (Some message).

Definition goUp : M unit :=
  let parent :=
    match listing with
    | Some l =>
        match DirectoryListing.parent l with
        | Some p => p
        | None => EmptyString
        end
    | None => EmptyString
    end in
  refresh (Some parent).

Definition crumbs : list string :=
  if Js.truthy currentPath then Js.filter_Boolean (Js.split "/" currentPath)
  else [].

Definition isRoot : bool := negb (Js.truthy currentPath).

(** The "Root" button of the breadcrumb bar navigates here. *)
Definition root_target : string := EmptyString.

(** The buttons after "Root", one per crumb. *)
Definition breadcrumbs : list Crumb :=
  map_index
    (fun crumb index =>
       let path := Js.join "/" (Js.slice0 (index + 1) crumbs) in
       {| crumb_label := crumb; crumb_target := path |})
    crumbs.

(** [UploadDropzone]'s [handleFiles], without its busy flag. *)
Definition handleFiles (files : upload_files) : M unit :=
  let length :=
    match files with
    | OfFileList fl => List.length (FileList_items fl)
    | OfArray fs => List.length fs
    end in
  if Nat.eqb length 0 then ret tt
  else
    try_catch
      (uploadFiles VITE_API_BASE server currentPath files ;;
       handleUploadComplete)
      (fun error => handleError (message_of error)).

End Render.

(** What the user can do with the page. *)
Inductive event : Type :=
| Mount
| ClickRefresh
| ClickNewFolder (prompt : option string)
| ClickUp
| ClickRoot
| ClickCrumb (index : nat)
| ClickFolder (row : nat)
| ClickRename (row : nat) (prompt : option string)
| ClickDelete (row : nat) (confirmed : bool)
| SelectFiles (files : upload_files).

(** The rows [FileList] renders. *)
Definition rows (st : AppState.t) : list FileItem.t :=
  if AppState.loading st then []
  else match AppState.listing st with
       | Some l => DirectoryListing.items l
       | None => []
       end.

(** One event, handled by the closures of the current render. *)
Definition dispatch (ev : event) : M unit :=
  fun w =>
    let st := ui w in
    let cp := AppState.currentPath st in
    let ls := AppState.listing st in
    match ev with
    | Mount => refresh cp (Some EmptyString) w
    | ClickRefresh => refresh cp None w
    | ClickNewFolder prompt => handleCreateFolder cp prompt w
    | ClickUp =>
        if up_disabled (Toolbar cp (isRoot cp)) then ret tt w else goUp cp ls w
    | ClickRoot => navigateTo cp root_target w
    | ClickCrumb index =>
        match nth_error (breadcrumbs cp) index with
        | Some c => navigateTo cp (crumb_target c) w
        | None => ret tt w
        end
    | ClickFolder row =>
        match nth_error (rows st) row with
        | Some item =>
            if FileItem.is_dir item then navigateTo cp (FileItem.path item) w
            else ret tt w
        | None => ret tt w
        end
    | ClickRename row prompt =>
        match nth_error (rows st) row with
        | Some item => handleRename cp item prompt w
        | None => ret tt w
        end
    | ClickDelete row confirmed =>
        match nth_error (rows st) row with
        | Some item => handleDelete cp item confirmed w
        | None => ret tt w
        end
    | SelectFiles files => handleFiles cp files w
    end.

(** The worlds the page can be in: it starts with no request sent and
    the initial state, and moves by events. *)
Inductive reachable : World -> Prop :=
| reachable_initial :
    reachable {| sent := []; ui := AppState.initial |}
| reachable_step (w : World) (ev : event) :
    reachable w -> reachable (fst (dispatch ev w)).

End App.

(** ** The server's listing *)

(** Modelled from the spec: the server's DirectoryIndexer, whose code is
    not among the client sources.  A virtual path is a sequence of
    non-empty segments, '/'-joined; a listing carries its path, its entries,
    and as parent the parent virtual path, or null at the root. *)
Definition DirectoryIndexer_list (virtualPath : list string)
  (entries : list FileItem.t) : DirectoryListing.t :=
  {| DirectoryListing.path := Js.join "/" virtualPath;
     DirectoryListing.parent :=
       match virtualPath with
       | [] => None
       | _ :: _ => Some (Js.join "/" (removelast virtualPath))
       end;
     DirectoryListing.items := entries |}.

(** ** The REST surface and the reading of a run *)

(** The five operations of [api/client.ts] that talk to the server. *)
Inductive api_call : Type :=
| CallList (path : string)
| CallUpload (path : string) (files : upload_files)
| CallCreateFolder (parent name : string)
| CallRename (current_path new_path : string)
| CallDelete (path : string).

Definition run_call (base : option string)
  (server : list http_request -> http_request -> fetch_result)
  (call : api_call) : M unit :=
  match call with
  | CallList path => _ <- getDirectory base server path ;; ret tt
  | CallUpload path files => _ <- uploadFiles base server path files ;; ret tt
  | CallCreateFolder parent name => createFolder base server parent name
  | CallRename current_path new_path => renamePath base server current_path new_path
  | CallDelete path => deletePath base server path
  end.

(** The files of an upload, in order, whichever shape they came in. *)
Definition files_of (files : upload_files) : list File :=
  match files with
  | OfFileList fl => FileList_items fl
  | OfArray fs => fs
  end.

(** [formData.getAll(name)]. *)
Definition FormData_getAll (fd : FormData) (name : string) : list form_value :=
  map snd (filter (fun entry => String.eqb (fst entry) name) fd).

(** The world after one more request went out. *)
Definition record (w : World) (req : http_request) : World :=
  {| sent := (sent w ++ [req])%list; ui := ui w |}.

(** The requests of the REST table, as the client writes them. *)
Definition list_request (base : option string) (path : string) : http_request :=
  {| req_url := API_BASE base ++ "/api/files?"
                ++ (if Js.truthy path then "path=" ++ URLSearchParams.encode path
                    else EmptyString);
     req_method := GET; req_headers := []; req_body := None |}.

Definition folder_request (base : option string) (parent name : string) : http_request :=
  {| req_url := API_BASE base ++ "/api/files/folder";
     req_method := POST;
     req_headers := [("Content-Type", "application/json")];
     req_body := Some (BodyText (Json.stringify
                   (JObj [("parent", JStr parent); ("name", JStr name)]))) |}.

Definition rename_request (base : option string) (current_path new_path : string)
  : http_request :=
  {| req_url := API_BASE base ++ "/api/files/rename";
     req_method := PATCH;
     req_headers := [("Content-Type", "application/json")];
     req_body := Some (BodyText (Json.stringify
                   (JObj [("current_path", JStr current_path);
                          ("new_path", JStr new_path)]))) |}.

Definition delete_request (base : option string) (path : string) : http_request :=
  {| req_url := API_BASE base ++ "/api/files?path=" ++ URLSearchParams.encode path;
     req_method := DELETE; req_headers := []; req_body := None |}.

Definition upload_request (base : option string) (path : string) (files : list File)
  : http_request :=
  {| req_url := API_BASE base ++ "/api/files/upload";
     req_method := POST; req_headers := [];
     req_body := Some (BodyForm (map (fun f => ("files", FormFile f)) files
                                   ++ [("destination", FormText path)])%list) |}.

(** The error a response outside the success range is turned into. *)
Definition failure (fallback : string) (r : Response) : js_error :=
  match body r with
  | Unparseable _ => Error (statusText r)
  | Parsed JNull => TypeError "Cannot read properties of null (reading 'detail')"
  | Parsed (JObj props) =>
      Error (Json.to_string (nullish (Json.assoc "detail" props) (JStr fallback)))
  | Parsed _ => Error fallback
  end.

(** How a response settles a call that casts its success body to [T]. *)
Definition settle {T : Type} `{FromJSON T} (fallback : string) (answer : fetch_result)
  : outcome T :=
  match answer with
  | Rejected why => Throw (TypeError why)
  | Responded r =>
      if ok r then
        match body r with
        | Parsed v =>
            match from_json v with
            | Some x => Ok x
            | None => IllTyped
            end
        | Unparseable why => Throw (SyntaxError why)
        end
      else Throw (failure fallback r)
  end.

(** The name of a folder or the new name of an entry is a single
    well-formed name: non-empty, free of ['/'], neither [.] nor [..]. *)
Definition valid_name (s : string) : bool := segment_ok s && not_dot s.

(** A path all of whose [split] pieces are well-formed names. *)
Definition valid_path (p : string) : bool :=
  forallb valid_name (Js.split "/" p).

(** The state shows what the last listing said: the current path is the
    listing's, or the root before any listing arrived. *)
Definition in_sync (st : AppState.t) : Prop :=
  match AppState.listing st with
  | Some l => AppState.currentPath st = DirectoryListing.path l
  | None => AppState.currentPath st = EmptyString
  end.

(** A listing the DirectoryIndexer produced for some virtual path. *)
Definition indexed (l : DirectoryListing.t) : Prop :=
  exists virtualPath entries,
    Forall (fun s => segment_ok s = true) virtualPath /\
    l = DirectoryIndexer_list virtualPath entries.

(** A server whose listings all come from the DirectoryIndexer. *)
Definition serves_indexed_listings
  (server : list http_request -> http_request -> fetch_result) : Prop :=
  forall log req r v l,
    server log req = Responded r ->
    body r = Parsed v ->
    from_json v = Some l ->
    indexed l.

(** What holds of the state between two events. *)
Definition state_ok (st : AppState.t) : Prop :=
  in_sync st /\
  forall l, AppState.listing st = Some l -> indexed l.

(** A computation that keeps [state_ok]. *)
Definition preserves {A : Type} (c : M A) : Prop :=
  forall w, state_ok (ui w) -> state_ok (ui (fst (c w))).

(** The state [refresh] leaves, by how its request was settled. *)
Definition after_refresh (st : AppState.t) (o : outcome DirectoryListing.t)
  : AppState.t :=
  match o with
  | Ok data =>
      AppState.mk (DirectoryListing.path data) (Some data) false None
        (AppState.status st)
  | Throw e =>
      AppState.mk (AppState.currentPath st) (AppState.listing st) false
        (Some (message_of e)) (AppState.status st)
  | IllTyped =>
      AppState.mk (AppState.currentPath st) (AppState.listing st) false None
        (AppState.status st)
  end.

(** A server that honours the declared types: the JSON body of a success
    response to a listing request is a [DirectoryListing], and that of a
    success response to an upload is [{ uploaded: string[] }]. *)
Definition typed_server (base : option string)
  (server : list http_request -> http_request -> fetch_result) : Prop :=
  (forall log path r v,
     server log (list_request base path) = Responded r ->
     ok r = true -> body r = Parsed v ->
     exists l : DirectoryListing.t, from_json v = Some l) /\
  (forall log path files r v,
     server log (upload_request base path files) = Responded r ->
     ok r = true -> body r = Parsed v ->
     exists u : UploadResult, from_json v = Some u).

(** The request an operation sends, and the message it falls back to when
    an error body carries no detail. *)
Definition request_of (base : option string) (call : api_call) : http_request :=
  match call with
  | CallList path => list_request base path
  | CallUpload path files => upload_request base path (files_of files)
  | CallCreateFolder parent name => folder_request base parent name
  | CallRename current_path new_path => rename_request base current_path new_path
  | CallDelete path => delete_request base path
  end.

Definition fallback_of (call : api_call) : string :=
  match call with
  | CallUpload _ _ => "Upload failed"
  | _ => "Request failed"
  end.

(** A server that reports every delete as partial: status 207 and the
    entries it could not remove. *)
Definition partial_delete_server (log : list http_request) (req : http_request)
  : fetch_result :=
  Responded
    {| status := 207;
       statusText := "Multi-Status";
       body := Parsed (JObj [("deleted", JArr [JStr "docs/b.txt"]);
                             ("failed",
                              JArr [JObj [("path", JStr "docs/a.txt");
                                          ("reason", JStr "permission denied")]])]) |}.

(** A server that refuses everything with a [detail] message. *)
Definition refusing_server (log : list http_request) (req : http_request)
  : fetch_result :=
  Responded
    {| status := 404;
       statusText := "Not Found";
       body := Parsed (JObj [("detail", JStr "Path not found")]) |}.

(** A server that accepts every upload and names two stored files. *)
Definition accepting_server (log : list http_request) (req : http_request)
  : fetch_result :=
  Responded
    {| status := 200;
       statusText := "OK";
       body := Parsed (JObj [("uploaded", JArr [JStr "a.txt"; JStr "b (1).txt"])]) |}.

Definition fresh_world : World := {| sent := []; ui := AppState.initial |}.

Definition sample_files : list File :=
  [ {| file_name := "a.txt"; file_bytes := "alpha" |};
    {| file_name := "b.txt"; file_bytes := "beta" |} ].

(** A small server: every GET is answered with the listing of [docs],
    which holds the one file [a.txt]; every other request succeeds. *)
Definition docs_listing_json : json :=
  JObj [("path", JStr "docs");
        ("parent", JStr EmptyString);
        ("items",
         JArr [JObj [("name", JStr "a.txt");
                     ("path", JStr "docs/a.txt");
                     ("is_dir", JBool false);
                     ("size", JNum "12");
                     ("modified", JStr "2024-01-01T00:00:00");
                     ("mime_type", JStr "text/plain")]])].

Definition docs_server (log : list http_request) (req : http_request)
  : fetch_result :=
  match req_method req with
  | GET =>
      Responded {| status := 200; statusText := "OK";
                   body := Parsed docs_listing_json |}
  | _ =>
      Responded {| status := 200; statusText := "OK";
                   body := Parsed (JObj [("ok", JBool true)]) |}
  end.

Definition sample_item : FileItem.t :=
  {| FileItem.name := "a.txt"; FileItem.path := "docs/a.txt";
     FileItem.is_dir := false; FileItem.size := "12";
     FileItem.modified := "2024-01-01T00:00:00";
     FileItem.mime_type := Some "text/plain" |}.

(** The page after its first listing arrived from [docs_server]. *)
Definition docs_world : World := fst (dispatch None docs_server Mount fresh_world).

(** A server of a deeper tree: every GET is answered with the listing of
    [docs/reports/2024], whose parent is [docs/reports]; an upload is
    answered with the stored names, every other request succeeds. *)
Definition reports_listing_json : json :=
  JObj [("path", JStr "docs/reports/2024");
        ("parent", JStr "docs/reports");
        ("items",
         JArr [JObj [("name", JStr "q1.txt");
                     ("path", JStr "docs/reports/2024/q1.txt");
                     ("is_dir", JBool false);
                     ("size", JNum "2048");
                     ("modified", JStr "2024-04-01T09:30:00");
                     ("mime_type", JNull)]])].

Definition reports_server (log : list http_request) (req : http_request)
  : fetch_result :=
  match req_method req, req_body req with
  | GET, _ =>
      Responded {| status := 200; statusText := "OK";
                   body := Parsed reports_listing_json |}
  | POST, Some (BodyForm _) =>
      Responded {| status := 200; statusText := "OK";
                   body := Parsed (JObj [("uploaded", JArr [JStr "q2.txt"])]) |}
  | _, _ =>
      Responded {| status := 200; statusText := "OK";
                   body := Parsed (JObj [("ok", JBool true)]) |}
  end.

Definition q1_item : FileItem.t :=
  {| FileItem.name := "q1.txt"; FileItem.path := "docs/reports/2024/q1.txt";
     FileItem.is_dir := false; FileItem.size := "2048";
     FileItem.modified := "2024-04-01T09:30:00";
     FileItem.mime_type := None |}.

(** The page after its first listing arrived from [reports_server]. *)
Definition reports_world : World :=
  fst (dispatch None reports_server Mount fresh_world).

(** ** Reading requests back

    The inverse direction of the two encodings the client writes: the
    query string of [URLSearchParams] and the string literals of
    [JSON.stringify].  They are what a receiver runs; here they serve to
    show that nothing is lost or confused on the way. *)

(** [s.endsWith("/")]. *)
Fixpoint ends_with_slash (s : string) : bool :=
  match s with
  | EmptyString => false
  | String c rest =>
      match rest with
      | EmptyString => Ascii.eqb c "/"
      | String _ _ => ends_with_slash rest
      end
  end.

Module Hex.

(** The value of a hexadecimal digit, in either case. *)
Definition value (c : ascii) : option nat :=
  let n := nat_of_ascii c in
  if Nat.leb 48 n && Nat.leb n 57 then Some (n - 48)
  else if Nat.leb 65 n && Nat.leb n 70 then Some (n - 55)
  else if Nat.leb 97 n && Nat.leb n 102 then Some (n - 87)
  else None.

End Hex.

Module FormUrlencoded.

(** Percent-decoding of a query component, with [+] read as a space. *)
Fixpoint decode (s : string) : string :=
  match s with
  | EmptyString => EmptyString
  | String c rest =>
      if Ascii.eqb c "+" then String " " (decode rest)
      else if Ascii.eqb c "%" then
        match rest with
        | String h (String l rest') =>
            match Hex.value h, Hex.value l with
            | Some a, Some b => String (ascii_of_nat (16 * a + b)) (decode rest')
            | _, _ => String c (decode rest)
            end
        | _ => String c (decode rest)
        end
      else String c (decode rest)
  end.

(** The bytes an encoded component is made of: the unreserved bytes, [+],
    [%] and the hexadecimal digits (which are unreserved). *)
Definition safe (c : ascii) : bool :=
  URLSearchParams.unreserved c || Ascii.eqb c "+" || Ascii.eqb c "%".

Fixpoint all_safe (s : string) : bool :=
  match s with
  | EmptyString => true
  | String c rest => safe c && all_safe rest
  end.

End FormUrlencoded.

Module JsonText.

(** Reads a string literal from just after its opening quote: the string
    it denotes and the text after its closing quote. *)
Fixpoint read_string (s : string) : option (string * string) :=
  let cons (c : ascii) (r : option (string * string)) :=
    match r with
    | Some (body, rest) => Some (String c body, rest)
    | None => None
    end in
  match s with
  | EmptyString => None
  | String c rest =>
      if Ascii.eqb c Json.quote_char then Some (EmptyString, rest)
      else if Ascii.eqb c Json.backslash then
        match rest with
        | EmptyString => None
        | String e rest1 =>
            if Ascii.eqb e Json.quote_char then cons Json.quote_char (read_string rest1)
            else if Ascii.eqb e Json.backslash then cons Json.backslash (read_string rest1)
            else if Ascii.eqb e "b" then cons (ascii_of_nat 8) (read_string rest1)
            else if Ascii.eqb e "t" then cons (ascii_of_nat 9) (read_string rest1)
            else if Ascii.eqb e "n" then cons (ascii_of_nat 10) (read_string rest1)
            else if Ascii.eqb e "f" then cons (ascii_of_nat 12) (read_string rest1)
            else if Ascii.eqb e "r" then cons (ascii_of_nat 13) (read_string rest1)
            else if Ascii.eqb e "u" then
              match rest1 with
              | String _ (String _ (String h (String l rest2))) =>
                  match Hex.value h, Hex.value l with
                  | Some a, Some b =>
                      cons (ascii_of_nat (16 * a + b)) (read_string rest2)
                  | _, _ => None
                  end
              | _ => None
              end
            else None
        end
      else cons c (read_string rest)
  end.

End JsonText.

(** A server that cannot be reached. *)
Definition unreachable_server (log : list http_request) (req : http_request)
  : fetch_result :=
  Rejected "Failed to fetch".

(** A server that succeeds with an empty body, which is not JSON. *)
Definition no_content_server (log : list http_request) (req : http_request)
  : fetch_result :=
  Responded {| status := 204; statusText := "No Content";
               body := Unparseable "Unexpected end of JSON input" |}.


(** A server whose errors are JSON without a [detail]. *)
Definition terse_server (log : list http_request) (req : http_request)
  : fetch_result :=
  Responded {| status := 500; statusText := "Internal Server Error";
               body := Parsed (JObj [("error", JStr "boom")]) |}.

(** A computation that keeps a property of the page state. *)
Definition keeps (P : AppState.t -> Prop) {A : Type} (c : M A) : Prop :=
  forall w, P (ui w) -> P (ui (fst (c w))).

(** A handler that never rejects: it resolves, or an unchecked cast met a
    value outside its type. *)
Definition settles (c : M unit) : Prop :=
  forall w, snd (c w) = Ok tt \/ snd (c w) = IllTyped.

(** A computation that never leaves the typed program. *)
Definition sound {A : Type} (c : M A) : Prop :=
  forall w, snd (c w) <> IllTyped.

(** The events that only look: they navigate or reload. *)
Definition is_navigation (ev : event) : bool :=
  match ev with
  | Mount | ClickRefresh | ClickUp | ClickRoot | ClickCrumb _ | ClickFolder _ => true
  | _ => false
  end.

(** The page state with another error line. *)
Definition with_error (st : AppState.t) (e : option string) : AppState.t :=
  AppState.mk (AppState.currentPath st) (AppState.listing st) (AppState.loading st)
    e (AppState.status st).

(** The page state with another status line. *)
Definition with_status (st : AppState.t) (s : option string) : AppState.t :=
  AppState.mk (AppState.currentPath st) (AppState.listing st) (AppState.loading st)
    (AppState.error st) s.

(** What a handler adds to the log: nothing, one request, or a mutation
    followed by the reload of the current directory. *)
Definition adds (base : option string) (cp : string) (c : M unit) (w : World) : Prop :=
  exists l,
    sent (fst (c w)) = (sent w ++ l)%list /\
    (l = [] \/ (exists a, l = [a]) \/ (exists a, l = [a; list_request base cp])).

(** ** [scripts/install_services.sh]: its options

    The pure part of the script: the loop over the command line and the
    [case] that classifies the frontend mode.  Arguments are byte strings
    without NUL; [tr] works byte by byte, on the ASCII letters. *)

Module InstallScript.

(** How the option loop ends: the script goes on with a frontend mode, or
    it exits with a status. *)
Inductive args_result : Type :=
| Proceed (FRONTEND_MODE : string)
| ExitWith (code : nat).

(** The text after the first [=], if there is one. *)
Fixpoint after_equals (s : string) : option string :=
  match s with
  | EmptyString => None
  | String c rest => if Ascii.eqb c "=" then Some rest else after_equals rest
  end.

(** The expansion [${1#*=}]: the shortest prefix ending in [=] removed. *)
Definition strip_to_equals (s : string) : string :=
  match after_equals s with
  | Some rest => rest
  | None => s
  end.

(** The [while [[ $# -gt 0 ]]] loop with its [case "$1"], started with the
    mode [FRONTEND_MODE]. *)
Fixpoint parse_args (FRONTEND_MODE : string) (args : list string) : args_result :=
  match args with
  | [] => Proceed FRONTEND_MODE
  | arg :: rest =>
      if String.eqb arg "--frontend" then
        (* shift; FRONTEND_MODE="${1:-static}" *)
        match rest with
        | [] => Proceed "static"
        | value :: rest' =>
            parse_args (if String.eqb value EmptyString then "static" else value) rest'
        end
      else if String.prefix "--frontend=" arg then
        parse_args (strip_to_equals arg) rest
      else if String.eqb arg "--help" || String.eqb arg "-h" then ExitWith 0
      else ExitWith 1
  end.

(** The script starts the loop with [FRONTEND_MODE="static"]. *)
Definition options (args : list string) : args_result := parse_args "static" args.

Definition newline : ascii := "010"%char.

(** The arguments the shell's [echo] takes for options: a dash followed by
    one or more of [n], [e], [E]. *)
Fixpoint echo_flags (s : string) : bool :=
  match s with
  | EmptyString => true
  | String c rest =>
      (Ascii.eqb c "n" || Ascii.eqb c "e" || Ascii.eqb c "E") && echo_flags rest
  end.

Definition echo_option (s : string) : bool :=
  match s with
  | String dash (String c rest) => Ascii.eqb dash "-" && echo_flags (String c rest)
  | _ => false
  end.

(** What [echo "$s"] prints. *)
Definition echo (s : string) : string :=
  if echo_option s then
    if Js.occurs "n" s then EmptyString else String newline EmptyString
  else s ++ String newline EmptyString.

(** [tr '[:upper:]' '[:lower:]'] on one byte. *)
Definition lower (c : ascii) : ascii :=
  let n := nat_of_ascii c in
  if Nat.leb 65 n && Nat.leb n 90 then ascii_of_nat (n + 32) else c.

Fixpoint tr_lower (s : string) : string :=
  match s with
  | EmptyString => EmptyString
  | String c rest => String (lower c) (tr_lower rest)
  end.

(** Command substitution drops the trailing newlines of the output. *)
Fixpoint strip_trailing_newlines (s : string) : string :=
  match s with
  | EmptyString => EmptyString
  | String c rest =>
      match strip_trailing_newlines rest with
      | EmptyString => if Ascii.eqb c newline then EmptyString else String c EmptyString
      | r => String c r
      end
  end.

(** [FRONTEND_MODE_LOWER="$(echo "$FRONTEND_MODE" | tr '[:upper:]' '[:lower:]')"]. *)
Definition FRONTEND_MODE_LOWER (FRONTEND_MODE : string) : string :=
  strip_trailing_newlines (tr_lower (echo FRONTEND_MODE)).

(** The branches of [case "$FRONTEND_MODE_LOWER"]. *)
Inductive frontend : Type :=
| Static
| Dev
| NoFrontend
| Unsupported.

Definition frontend_of (FRONTEND_MODE : string) : frontend :=
  let mode := FRONTEND_MODE_LOWER FRONTEND_MODE in
  if String.eqb mode "static" then Static
  else if String.eqb mode "dev" then Dev
  else if String.eqb mode "none" || String.eqb mode EmptyString then NoFrontend
  else Unsupported.

End InstallScript.

(** ** Facts about strings *)

Lemma append_assoc (a b c : string) : ((a ++ b) ++ c = a ++ (b ++ c))%string.
Proof.
  induction a as [|x a IH]; simpl; [reflexivity|].
  rewrite IH. reflexivity.
Qed.


(** ** Facts about split, join and segments *)

Section SplitJoin.

Variable sep : ascii.

Lemma split_nonempty (s : string) : Js.split sep s <> [].
Proof.
  destruct s as [|c rest]; simpl; [discriminate|].
  destruct (Ascii.eqb c sep); [discriminate|].
  destruct (Js.split sep rest); discriminate.
Qed.

Lemma split_pieces_free (s : string) :
  Forall (fun p => Js.occurs sep p = false) (Js.split sep s).
Proof.
  induction s as [|c rest IH]; simpl.
  - constructor; [reflexivity|constructor].
  - destruct (Ascii.eqb c sep) eqn:E.
    + constructor; [reflexivity|exact IH].
    + destruct (Js.split sep rest) as [|p ps].
      * constructor; [simpl; rewrite E; reflexivity|constructor].
      * inversion IH; subst. constructor; [|assumption].
        simpl. rewrite E. assumption.
Qed.

Lemma split_free (s : string) :
  Js.occurs sep s = false -> Js.split sep s = [s].
Proof.
  induction s as [|c rest IH]; simpl; intros H; [reflexivity|].
  apply orb_false_iff in H. destruct H as [Hc Hr].
  rewrite Hc, (IH Hr). reflexivity.
Qed.

Lemma split_app (a b : string) :
  Js.occurs sep a = false ->
  Js.split sep (a ++ String sep b) = a :: Js.split sep b.
Proof.
  induction a as [|c rest IH]; simpl; intros H.
  - rewrite Ascii.eqb_refl. reflexivity.
  - apply orb_false_iff in H. destruct H as [Hc Hr].
    rewrite Hc, (IH Hr). reflexivity.
Qed.

Lemma split_join (xs : list string) :
  xs <> [] ->
  Forall (fun p => Js.occurs sep p = false) xs ->
  Js.split sep (Js.join (String sep EmptyString) xs) = xs.
Proof.
  induction xs as [|x rest IH]; intros Hne Hall; [congruence|].
  inversion Hall as [|? ? Hx Hrest]; subst.
  destruct rest as [|y rest'].
  - simpl. apply split_free. assumption.
  - change (Js.join (String sep EmptyString) (x :: y :: rest'))
      with (x ++ String sep (Js.join (String sep EmptyString) (y :: rest')))%string.
    rewrite split_app by assumption.
    rewrite IH; [reflexivity|discriminate|assumption].
Qed.

End SplitJoin.

Lemma filter_Boolean_id (xs : list string) :
  Forall (fun p => Js.truthy p = true) xs -> Js.filter_Boolean xs = xs.
Proof.
  induction 1 as [|x rest Hx _ IH]; simpl; [reflexivity|].
  rewrite Hx. f_equal. exact IH.
Qed.

Lemma segment_ok_spec (s : string) :
  segment_ok s = true <-> Js.truthy s = true /\ Js.occurs "/" s = false.
Proof.
  unfold segment_ok. rewrite andb_true_iff, negb_true_iff. reflexivity.
Qed.

Lemma segments_ok (path : string) :
  Forall (fun p => segment_ok p = true) (segments path).
Proof.
  unfold segments, Js.filter_Boolean.
  apply Forall_forall. intros p Hin.
  apply filter_In in Hin. destruct Hin as [Hin Ht].
  apply segment_ok_spec. split; [assumption|].
  pose proof (split_pieces_free "/" path) as H.
  rewrite Forall_forall in H. apply H. assumption.
Qed.

Lemma Forall_segment_ok (xs : list string) :
  Forall (fun p => segment_ok p = true) xs ->
  Forall (fun p => Js.truthy p = true) xs /\
  Forall (fun p => Js.occurs "/" p = false) xs.
Proof.
  induction 1 as [|x rest Hx _ [IH1 IH2]]; [split; constructor|].
  apply segment_ok_spec in Hx. destruct Hx.
  split; constructor; assumption.
Qed.

(** Joining well-formed names and splitting again gives the names back. *)
Lemma segments_join (xs : list string) :
  Forall (fun p => segment_ok p = true) xs ->
  segments (Js.join "/" xs) = xs.
Proof.
  intros H. apply Forall_segment_ok in H. destruct H as [Ht Hf].
  unfold segments. destruct xs as [|x rest]; [reflexivity|].
  rewrite split_join; [|discriminate|assumption].
  apply filter_Boolean_id. assumption.
Qed.

Lemma join_empty_iff (xs : list string) :
  Forall (fun p => Js.truthy p = true) xs ->
  Js.join "/" xs = EmptyString <-> xs = [].
Proof.
  intros H. split; [|intros ->; reflexivity].
  destruct xs as [|x rest]; [reflexivity|].
  inversion H as [|? ? Hx _]; subst.
  destruct x; [discriminate|].
  destruct rest; simpl; discriminate.
Qed.

(** ** Running the client *)

Section ClientRuns.

Variable base : option string.
Variable server : list http_request -> http_request -> fetch_result.

Lemma fetch_run (url : string) (init : option RequestInit) (w : World) :
  fetch server url init w =
    (record w (make_request url init),
     match server (sent w) (make_request url init) with
     | Responded r => Ok r
     | Rejected why => Throw (TypeError why)
     end).
Proof.
  unfold fetch, record. destruct (server _ _); reflexivity.
Qed.

(** The error branch shared by [request] and [uploadFiles]. *)
Lemma error_branch_run {T : Type} (fallback : string) (r : Response) (w : World) :
  (message <- try_catch (response_json r)
                (fun _ => ret (JObj [("detail", JStr (statusText r))])) ;;
   detail <- lift (get_prop message "detail") ;;
   throw (Error (Json.to_string (nullish detail (JStr fallback))))) w
  = (w, @Throw T (failure fallback r)).
Proof.
  unfold bind, try_catch, response_json, failure.
  destruct (body r) as [v|why]; [|reflexivity].
  destruct v; reflexivity.
Qed.

Lemma request_run {T : Type} `{FromJSON T} (input : string)
  (init : option RequestInit) (w : World) :
  request base server input init w =
    (record w (make_request (API_BASE base ++ input) init),
     settle "Request failed"
       (server (sent w) (make_request (API_BASE base ++ input) init))).
Proof.
  unfold request, bind at 1. rewrite fetch_run.
  unfold settle. destruct (server _ _) as [r|why]; [|reflexivity].
  destruct (ok r); cbn [negb].
  - unfold bind, response_json, cast.
    destruct (body r) as [v|why]; [|reflexivity].
    unfold ret, lift. destruct (from_json v); reflexivity.
  - apply error_branch_run.
Qed.

Lemma getDirectory_run (path : string) (w : World) :
  getDirectory base server path w =
    (record w (list_request base path),
     settle "Request failed" (server (sent w) (list_request base path))).
Proof.
  unfold getDirectory. rewrite request_run.
  unfold list_request, make_request.
  destruct path as [|c rest]; reflexivity.
Qed.

Lemma createFolder_run (parent name : string) (w : World) :
  createFolder base server parent name w =
    (record w (folder_request base parent name),
     match settle (T := json) "Request failed"
             (server (sent w) (folder_request base parent name)) with
     | Ok _ => Ok tt
     | Throw e => Throw e
     | IllTyped => IllTyped
     end).
Proof.
  unfold createFolder, bind. rewrite request_run.
  unfold folder_request, make_request; cbn [init_method init_headers init_body].
  destruct (settle _ _); reflexivity.
Qed.

Lemma renamePath_run (current_path new_path : string) (w : World) :
  renamePath base server current_path new_path w =
    (record w (rename_request base current_path new_path),
     match settle (T := json) "Request failed"
             (server (sent w) (rename_request base current_path new_path)) with
     | Ok _ => Ok tt
     | Throw e => Throw e
     | IllTyped => IllTyped
     end).
Proof.
  unfold renamePath, bind. rewrite request_run.
  unfold rename_request, make_request; cbn [init_method init_headers init_body].
  destruct (settle _ _); reflexivity.
Qed.

Lemma deletePath_run (path : string) (w : World) :
  deletePath base server path w =
    (record w (delete_request base path),
     match settle (T := json) "Request failed"
             (server (sent w) (delete_request base path)) with
     | Ok _ => Ok tt
     | Throw e => Throw e
     | IllTyped => IllTyped
     end).
Proof.
  unfold deletePath, bind. rewrite request_run.
  unfold delete_request, make_request; cbn [init_method init_headers init_body].
  destruct (settle _ _); reflexivity.
Qed.

(** Appending one part per file, in order. *)
Lemma forEach_append (fs : list File) (fd : FormData) :
  forEach fs (fun fd file => FormData_append fd "files" (FormFile file)) fd
  = (fd ++ map (fun f => ("files", FormFile f)) fs)%list.
Proof.
  unfold forEach. revert fd.
  induction fs as [|f rest IH]; intros fd; simpl.
  - rewrite app_nil_r. reflexivity.
  - rewrite IH. unfold FormData_append. rewrite <- app_assoc. reflexivity.
Qed.

Lemma uploadFiles_run (path : string) (files : upload_files) (w : World) :
  uploadFiles base server path files w =
    (record w (upload_request base path (files_of files)),
     match settle "Upload failed"
             (server (sent w) (upload_request base path (files_of files))) with
     | Ok data => Ok (uploaded data)
     | Throw e => Throw e
     | IllTyped => IllTyped
     end).
Proof.
  unfold uploadFiles.
  assert (Hform :
    FormData_append
      match files with
      | OfFileList fl =>
          forEach (Array_from fl)
            (fun fd file => FormData_append fd "files" (FormFile file)) []
      | OfArray fs =>
          forEach fs (fun fd file => FormData_append fd "files" (FormFile file)) []
      end "destination" (FormText path)
    = (map (fun f => ("files", FormFile f)) (files_of files)
         ++ [("destination", FormText path)])%list).
  { unfold FormData_append. f_equal.
    destruct files as [fl|fs]; unfold Array_from, files_of;
      rewrite forEach_append; reflexivity. }
  rewrite Hform. unfold bind at 1. rewrite fetch_run.
  unfold upload_request, make_request; cbn [init_method init_headers init_body].
  unfold settle. destruct (server _ _) as [r|why]; [|reflexivity].
  destruct (ok r); cbn [negb].
  - unfold bind, response_json, cast.
    destruct (body r) as [v|why]; [|reflexivity].
    unfold ret, lift. destruct (from_json v); reflexivity.
  - apply error_branch_run.
Qed.

End ClientRuns.

(** ** The client's requests and failures *)

Lemma run_call_world (base : option string)
  (server : list http_request -> http_request -> fetch_result)
  (call : api_call) (w : World) :
  fst (run_call base server call w) = record w (request_of base call).
Proof.
  destruct call; unfold run_call; try unfold bind;
    rewrite ?getDirectory_run, ?uploadFiles_run, ?createFolder_run,
      ?renamePath_run, ?deletePath_run; cbn [request_of];
    repeat match goal with |- context [match ?o with _ => _ end] => destruct o end;
    reflexivity.
Qed.



Lemma failure_detail (fallback : string) (r : Response)
  (props : list (string * json)) (d : string) :
  body r = Parsed (JObj props) ->
  Json.assoc "detail" props = Some (JStr d) ->
  failure fallback r = Error d.
Proof. unfold failure. intros -> ->. reflexivity. Qed.

(** When an error body is JSON but carries no [detail] (or a null one),
    the message is the operation's fixed fallback. *)
Lemma failure_without_detail (fallback : string) (r : Response)
  (props : list (string * json)) :
  body r = Parsed (JObj props) ->
  Json.assoc "detail" props = None \/ Json.assoc "detail" props = Some JNull ->
  failure fallback r = Error fallback.
Proof. unfold failure. intros -> [-> | ->]; reflexivity. Qed.

Lemma sent_record_inv (w : World) (req req' : http_request) :
  sent (record w req) = (sent w ++ [req'])%list -> req' = req.
Proof.
  unfold record; cbn [sent]. intros H.
  apply app_inv_head in H. congruence.
Qed.






(** C1, as the client behaves: [deletePath] sends one DELETE request; it
    fails when the response status is outside 200-299 or a success body is
    not JSON.  The partial status 207 is inside the success range, so a 207
    answer with a JSON body makes [deletePath] resolve. *)
Theorem deletePath_outcome (base : option string)
  (server : list http_request -> http_request -> fetch_result)
  (path : string) (w : World) (r : Response) :
  server (sent w) (delete_request base path) = Responded r ->
  fst (deletePath base server path w) = record w (delete_request base path) /\
  ((status r < 200 \/ 299 < status r)%Z ->
   exists e, snd (deletePath base server path w) = Throw e) /\
  ((200 <= status r <= 299)%Z ->
   snd (deletePath base server path w) =
     match body r with
     | Parsed _ => Ok tt
     | Unparseable why => Throw (SyntaxError why)
     end) /\
  (status r = 207%Z ->
   forall v, body r = Parsed v -> snd (deletePath base server path w) = Ok tt).
Proof.
  intros Hr. rewrite deletePath_run, Hr. cbn [fst snd].
  assert (Hok : (200 <= status r <= 299)%Z ->
                match settle (T := json) "Request failed" (Responded r) with
                | Ok _ => Ok tt
                | Throw e => Throw e
                | IllTyped => IllTyped
                end =
                match body r with
                | Parsed _ => Ok tt
                | Unparseable why => Throw (SyntaxError why)
                end).
  { intros [Hlo Hhi]. unfold settle, ok.
    apply Z.leb_le in Hlo, Hhi. rewrite Hlo, Hhi. cbn [andb].
    destruct (body r); reflexivity. }
  split; [reflexivity|]. split; [|split].
  - intros Hout. exists (failure "Request failed" r).
    unfold settle, ok.
    replace ((200 <=? status r) && (status r <=? 299))%Z with false; [reflexivity|].
    symmetry. apply andb_false_iff.
    destruct Hout as [H|H]; [left|right]; apply Z.leb_gt; exact H.
  - exact Hok.
  - intros H207 v Hv. rewrite Hok by lia. rewrite Hv. reflexivity.
Qed.

Lemma deletePath_outcome_witness :
  exists e, snd (deletePath None refusing_server "docs" fresh_world) = Throw e.
Proof.
  destruct (deletePath_outcome None refusing_server "docs" fresh_world
              {| status := 404; statusText := "Not Found";
                 body := Parsed (JObj [("detail", JStr "Path not found")]) |}
              eq_refl) as [_ [Hout _]].
  apply Hout. right. reflexivity.
Defined.

(** C1 fails as stated: the server answers a delete with the partial
    status 207 and the list of entries it could not remove, and
    [deletePath] resolves. *)
Lemma deletePath_resolves_on_207 :
  exists r : Response,
    partial_delete_server [] (delete_request None "docs") = Responded r /\
    status r = 207%Z /\
    deletePath None partial_delete_server "docs" fresh_world
      = ({| sent := [delete_request None "docs"]; ui := AppState.initial |}, Ok tt).
Proof.
  eexists. split; [reflexivity|]. split; reflexivity.
Qed.

(** C5: listing a directory sends one GET to [/api/files]; the query holds
    the single parameter [path] with the path as its value, and no
    parameter at all when the path is empty. *)
Theorem getDirectory_request (base : option string)
  (server : list http_request -> http_request -> fetch_result)
  (path : string) (w : World) :
  let search : URLSearchParams.t :=
    if String.eqb path EmptyString then [] else [("path", path)] in
  sent (fst (getDirectory base server path w)) =
    (sent w ++ [ {| req_url := API_BASE base ++ "/api/files?"
                               ++ URLSearchParams.toString search;
                    req_method := GET;
                    req_headers := [];
                    req_body := None |} ])%list /\
  URLSearchParams.toString search =
    (if String.eqb path EmptyString then EmptyString
     else "path=" ++ URLSearchParams.encode path).
Proof.
  rewrite getDirectory_run. unfold record, list_request; cbn [fst sent].
  destruct path as [|c rest]; split; reflexivity.
Qed.

(** C6: renaming sends one PATCH to [/api/files/rename] whose body is the
    JSON text of an object with exactly the fields [current_path] and
    [new_path], holding the source and the destination. *)
Theorem renamePath_request (base : option string)
  (server : list http_request -> http_request -> fetch_result)
  (current_path new_path : string) (w : World) :
  exists text : string,
    sent (fst (renamePath base server current_path new_path w)) =
      (sent w ++ [ {| req_url := API_BASE base ++ "/api/files/rename";
                      req_method := PATCH;
                      req_headers := [("Content-Type", "application/json")];
                      req_body := Some (BodyText text) |} ])%list /\
    text = Json.stringify (JObj [("current_path", JStr current_path);
                                 ("new_path", JStr new_path)]) /\
    text = "{" ++ Json.quote "current_path" ++ ":" ++ Json.quote current_path
           ++ "," ++ Json.quote "new_path" ++ ":" ++ Json.quote new_path ++ "}".
Proof.
  eexists. rewrite renamePath_run. unfold record, rename_request; cbn [fst sent].
  split; [reflexivity|]. split; [reflexivity|].
  cbn [Json.stringify map Js.join].
  rewrite !append_assoc. reflexivity.
Qed.

Lemma getAll_files (path : string) (fs : list File) :
  FormData_getAll
    (map (fun f => ("files", FormFile f)) fs ++ [("destination", FormText path)])%list
    "files" = map FormFile fs.
Proof.
  unfold FormData_getAll.
  induction fs as [|f rest IH]; [reflexivity|].
  cbn. f_equal. exact IH.
Qed.

Lemma getAll_destination (path : string) (fs : list File) :
  FormData_getAll
    (map (fun f => ("files", FormFile f)) fs ++ [("destination", FormText path)])%list
    "destination" = [FormText path].
Proof.
  unfold FormData_getAll.
  induction fs as [|f rest IH]; [reflexivity|].
  cbn. exact IH.
Qed.

Lemma from_json_all_strings (names : list string) :
  from_json_all (from_json (T := string)) (map JStr names) = Some names.
Proof.
  induction names as [|n rest IH]; [reflexivity|].
  cbn. cbn in IH. rewrite IH. reflexivity.
Qed.

(** C4: an upload sends one POST to [/api/files/upload] whose body is a
    form with one [files] part per file and one [destination] field holding
    the target directory; on a success response it returns the names of
    the body's [uploaded] array. *)
Theorem uploadFiles_request_and_result (base : option string)
  (server : list http_request -> http_request -> fetch_result)
  (path : string) (files : upload_files) (w : World) :
  exists form : FormData,
    sent (fst (uploadFiles base server path files w)) =
      (sent w ++ [ {| req_url := API_BASE base ++ "/api/files/upload";
                      req_method := POST;
                      req_headers := [];
                      req_body := Some (BodyForm form) |} ])%list /\
    FormData_getAll form "files" = map FormFile (files_of files) /\
    FormData_getAll form "destination" = [FormText path] /\
    List.length form = S (List.length (files_of files)) /\
    (forall r props names,
       server (sent w) (upload_request base path (files_of files)) = Responded r ->
       ok r = true ->
       body r = Parsed (JObj props) ->
       Json.assoc "uploaded" props = Some (JArr (map JStr names)) ->
       snd (uploadFiles base server path files w) = Ok names).
Proof.
  exists (map (fun f => ("files", FormFile f)) (files_of files)
            ++ [("destination", FormText path)])%list.
  rewrite uploadFiles_run. cbn [fst snd].
  split; [reflexivity|].
  split; [apply getAll_files|].
  split; [apply getAll_destination|].
  split; [rewrite length_app, length_map; cbn; lia|].
  intros r props names Hr Hok Hb Hup.
  rewrite Hr. unfold settle. rewrite Hok, Hb.
  unfold from_json, FromJSON_UploadResult, field. rewrite Hup.
  unfold from_json, FromJSON_array. rewrite from_json_all_strings.
  reflexivity.
Qed.

Lemma uploadFiles_request_and_result_witness :
  sent (fst (uploadFiles None accepting_server "docs" (OfArray sample_files) fresh_world))
    = [upload_request None "docs" sample_files] /\
  snd (uploadFiles None accepting_server "docs" (OfArray sample_files) fresh_world)
    = Ok ["a.txt"; "b (1).txt"].
Proof.
  destruct (uploadFiles_request_and_result None accepting_server "docs"
              (OfArray sample_files) fresh_world)
    as [form [Hsent [_ [_ [_ Hres]]]]].
  split.
  - reflexivity.
  - exact (Hres _ _ ["a.txt"; "b (1).txt"] eq_refl eq_refl eq_refl eq_refl).
Defined.

(** C9: a [FileList] and an array of the same files give the same run of
    [uploadFiles]; the form holds each file once under [files], in order,
    and then the destination, once. *)
Theorem uploadFiles_shapes_agree (base : option string)
  (server : list http_request -> http_request -> fetch_result)
  (path : string) (fs : list File) (w : World) :
  uploadFiles base server path (OfFileList {| FileList_items := fs |}) w
    = uploadFiles base server path (OfArray fs) w /\
  exists form : FormData,
    sent (fst (uploadFiles base server path (OfArray fs) w)) =
      (sent w ++ [ {| req_url := API_BASE base ++ "/api/files/upload";
                      req_method := POST;
                      req_headers := [];
                      req_body := Some (BodyForm form) |} ])%list /\
    form = (map (fun f => ("files", FormFile f)) fs
              ++ [("destination", FormText path)])%list /\
    FormData_getAll form "files" = map FormFile fs /\
    FormData_getAll form "destination" = [FormText path].
Proof.
  split.
  - rewrite !uploadFiles_run. reflexivity.
  - eexists. rewrite uploadFiles_run. cbn [fst files_of].
    split; [reflexivity|]. split; [reflexivity|].
    split; [apply getAll_files|apply getAll_destination].
Qed.

(** ** Running the page *)

Section AppRuns.

Variable base : option string.
Variable server : list http_request -> http_request -> fetch_result.

Lemma refresh_run (cp : string) (path : option string) (w : World) :
  refresh base server cp path w =
    let p := match path with Some p => p | None => cp end in
    let o := settle "Request failed" (server (sent w) (list_request base p)) in
    ({| sent := (sent w ++ [list_request base p])%list;
        ui := after_refresh (ui w) o |},
     match o with
     | IllTyped => IllTyped
     | _ => Ok tt
     end).
Proof.
  unfold refresh, try_finally, try_catch.
  unfold bind at 1 2. unfold setLoading at 1, setError at 1, setState.
  cbn [sent ui]. unfold bind at 1. rewrite getDirectory_run. cbn [sent ui record].
  destruct (settle _ _) as [data|e|]; reflexivity.
Qed.

Lemma refresh_sent (cp : string) (path : option string) (w : World) :
  sent (fst (refresh base server cp path w)) =
    (sent w ++ [list_request base match path with Some p => p | None => cp end])%list.
Proof. rewrite refresh_run. reflexivity. Qed.

Lemma settle_indexed (fallback : string) (log : list http_request)
  (req : http_request) (l : DirectoryListing.t) :
  serves_indexed_listings server ->
  settle fallback (server log req) = Ok l -> indexed l.
Proof.
  intros Hs. unfold settle. destruct (server log req) as [r|why] eqn:Hr; [|discriminate].
  destruct (ok r); [|discriminate].
  destruct (body r) as [v|why] eqn:Hb; [|discriminate].
  destruct (from_json v) as [x|] eqn:Hv; [|discriminate].
  intros [= <-]. exact (Hs log req r v x Hr Hb Hv).
Qed.

(** *** Keeping the state in step with the listing *)

Lemma preserves_ret {A : Type} (a : A) : preserves (ret a).
Proof. intros w H. exact H. Qed.

Lemma preserves_bind {A B : Type} (c : M A) (k : A -> M B) :
  preserves c -> (forall a, preserves (k a)) -> preserves (bind c k).
Proof.
  intros Hc Hk w H. unfold bind.
  specialize (Hc w H). destruct (c w) as [w' [a|e|]]; cbn [fst] in *.
  - apply Hk. exact Hc.
  - exact Hc.
  - exact Hc.
Qed.

Lemma preserves_try_catch {A : Type} (c : M A) (h : js_error -> M A) :
  preserves c -> (forall e, preserves (h e)) -> preserves (try_catch c h).
Proof.
  intros Hc Hh w H. unfold try_catch.
  specialize (Hc w H). destruct (c w) as [w' [a|e|]]; cbn [fst] in *.
  - exact Hc.
  - apply Hh. exact Hc.
  - exact Hc.
Qed.

Lemma preserves_setStatus (v : option string) : preserves (setStatus v).
Proof. intros w H. exact H. Qed.

Lemma preserves_setError (v : option string) : preserves (setError v).
Proof. intros w H. exact H. Qed.

Lemma preserves_createFolder (parent name : string) :
  preserves (createFolder base server parent name).
Proof. intros w H. rewrite createFolder_run. exact H. Qed.

Lemma preserves_renamePath (current_path new_path : string) :
  preserves (renamePath base server current_path new_path).
Proof. intros w H. rewrite renamePath_run. exact H. Qed.

Lemma preserves_deletePath (path : string) :
  preserves (deletePath base server path).
Proof. intros w H. rewrite deletePath_run. exact H. Qed.

Lemma preserves_uploadFiles (path : string) (files : upload_files) :
  preserves (uploadFiles base server path files).
Proof. intros w H. rewrite uploadFiles_run. exact H. Qed.

Lemma preserves_refresh (cp : string) (path : option string) :
  serves_indexed_listings server ->
  preserves (refresh base server cp path).
Proof.
  intros Hs w [Hsync Hidx]. rewrite refresh_run. cbn [fst ui].
  destruct (settle _ _) as [data|e|] eqn:Ho; cbn [after_refresh].
  - split.
    + reflexivity.
    + cbn [AppState.listing]. intros l [= <-].
      eapply settle_indexed; eassumption.
  - split; assumption.
  - split; assumption.
Qed.

Create HintDb preserves.

#[local] Hint Resolve preserves_ret preserves_setStatus preserves_setError
  preserves_createFolder preserves_renamePath preserves_deletePath
  preserves_uploadFiles preserves_refresh : preserves.

Ltac preserves_step :=
  first [ solve [auto with preserves]
        | apply preserves_try_catch; [|intros ?]
        | apply preserves_bind; [|intros ?] ].

Lemma preserves_handlers (cp : string) :
  serves_indexed_listings server ->
  (forall prompt, preserves (handleCreateFolder base server cp prompt)) /\
  (forall item confirmed, preserves (handleDelete base server cp item confirmed)) /\
  (forall item prompt, preserves (handleRename base server cp item prompt)) /\
  (forall files, preserves (handleFiles base server cp files)) /\
  (forall ls, preserves (goUp base server cp ls)).
Proof.
  intros Hs. split; [|split; [|split; [|split]]].
  - intros [name|]; unfold handleCreateFolder; [|auto with preserves].
    destruct (negb (Js.truthy name)); repeat preserves_step.
  - intros item [|]; unfold handleDelete; cbn [negb]; repeat preserves_step.
  - intros item [newName|]; unfold handleRename; [|auto with preserves].
    destruct (negb (Js.truthy newName) || String.eqb newName (FileItem.name item));
      repeat preserves_step.
  - intros files. unfold handleFiles, handleUploadComplete, handleError.
    destruct (Nat.eqb _ 0); repeat preserves_step.
  - intros ls. unfold goUp. auto with preserves.
Qed.

Lemma preserves_dispatch (ev : event) :
  serves_indexed_listings server ->
  preserves (dispatch base server ev).
Proof.
  intros Hs w H.
  destruct (preserves_handlers (AppState.currentPath (ui w)) Hs)
    as [Hcreate [Hdelete [Hrename [Hfiles Hup]]]].
  pose proof (fun path => preserves_refresh (AppState.currentPath (ui w)) path Hs)
    as Hrefresh.
  destruct ev; unfold dispatch, navigateTo;
    repeat match goal with
           | |- context [if ?b then _ else _] => destruct b
           | |- context [match nth_error ?l ?i with _ => _ end] =>
               destruct (nth_error l i)
           end;
    solve [ exact H | apply Hrefresh; exact H | apply Hcreate; exact H
          | apply Hdelete; exact H | apply Hrename; exact H
          | apply Hfiles; exact H | apply Hup; exact H ].
Qed.

Lemma reachable_state_ok (w : World) :
  serves_indexed_listings server ->
  reachable base server w -> state_ok (ui w).
Proof.
  intros Hs Hr. induction Hr as [|w ev _ IH].
  - split; [reflexivity|]. intros l H. discriminate.
  - apply preserves_dispatch; assumption.
Qed.

End AppRuns.

(** ** What the page sends *)

Section AppClaims.

Variable base : option string.
Variable server : list http_request -> http_request -> fetch_result.

Lemma handleCreateFolder_sent (cp name : string) (w : World) :
  Js.truthy name = true ->
  sent (fst (handleCreateFolder base server cp (Some name) w)) =
    (sent w ++ folder_request base cp name
       :: match settle (T := json) "Request failed"
                  (server (sent w) (folder_request base cp name)) with
          | Ok _ => [list_request base cp]
          | _ => []
          end)%list.
Proof.
  intros Ht. unfold handleCreateFolder. rewrite Ht. cbn [negb].
  unfold try_catch, bind. rewrite createFolder_run.
  destruct (settle _ _) as [v|e|].
  - unfold setStatus, setState. rewrite refresh_run. cbv zeta.
    destruct (settle _ _); cbn [fst sent record];
      rewrite <- app_assoc; reflexivity.
  - reflexivity.
  - reflexivity.
Qed.

Lemma handleRename_idle (cp : string) (item : FileItem.t)
  (prompt : option string) (w : World) :
  prompt = None \/ prompt = Some EmptyString \/ prompt = Some (FileItem.name item) ->
  handleRename base server cp item prompt w = (w, Ok tt).
Proof.
  unfold handleRename. intros [-> | [-> | ->]]; [reflexivity|reflexivity|].
  rewrite String.eqb_refl, orb_true_r. reflexivity.
Qed.

Lemma removelast_Forall {A : Type} (P : A -> Prop) (xs : list A) :
  Forall P xs -> Forall P (removelast xs).
Proof.
  induction 1 as [|x rest Hx Hrest IH]; [constructor|].
  destruct rest as [|y rest']; [constructor|].
  change (removelast (x :: y :: rest')) with (x :: removelast (y :: rest')).
  constructor; assumption.
Qed.

Lemma join_app (xs ys : list string) :
  xs <> [] -> ys <> [] ->
  Js.join "/" (xs ++ ys)%list = Js.join "/" xs ++ "/" ++ Js.join "/" ys.
Proof.
  induction xs as [|x rest IH]; intros Hx Hy; [congruence|].
  destruct rest as [|q rest'].
  - destruct ys as [|y ys']; [congruence|reflexivity].
  - change (Js.join "/" ((x :: q :: rest') ++ ys)%list)
      with (x ++ "/" ++ Js.join "/" ((q :: rest') ++ ys)%list).
    rewrite IH by (assumption || discriminate).
    change (Js.join "/" (x :: q :: rest')) with (x ++ "/" ++ Js.join "/" (q :: rest')).
    rewrite !append_assoc. reflexivity.
Qed.

Lemma join_snoc (ps : list string) (n : string) :
  ps <> [] ->
  Js.join "/" (ps ++ [n])%list = Js.join "/" ps ++ "/" ++ n.
Proof.
  intros Hne. apply join_app; [assumption|discriminate].
Qed.


(** The target path of a rename: [[parent, newName].filter(Boolean).join("/")]
    is the join of the parent segments and the new name. *)
Lemma rename_target (ps : list string) (n : string) :
  Forall (fun p => Js.truthy p = true) ps ->
  Js.truthy n = true ->
  Js.join "/" (Js.filter_Boolean [Js.join "/" ps; n]) = Js.join "/" (ps ++ [n])%list.
Proof.
  intros Hps Hn. unfold Js.filter_Boolean. cbn [filter]. rewrite Hn.
  destruct ps as [|p rest].
  - reflexivity.
  - assert (Ht : Js.truthy (Js.join "/" (p :: rest)) = true).
    { destruct (Js.join "/" (p :: rest)) eqn:E; [|reflexivity].
      apply join_empty_iff in E; [discriminate|assumption]. }
    rewrite Ht. rewrite join_snoc by discriminate. reflexivity.
Qed.

Lemma parent_segments_truthy (path : string) :
  Forall (fun p => Js.truthy p = true) (removelast (segments path)).
Proof.
  apply removelast_Forall.
  pose proof (segments_ok path) as H. apply Forall_segment_ok in H. tauto.
Qed.

Lemma handleRename_sent (cp : string) (item : FileItem.t) (newName : string)
  (w : World) :
  Js.truthy newName = true ->
  newName <> FileItem.name item ->
  let target :=
    Js.join "/" (removelast (segments (FileItem.path item)) ++ [newName])%list in
  sent (fst (handleRename base server cp item (Some newName) w)) =
    (sent w ++ rename_request base (FileItem.path item) target
       :: match settle (T := json) "Request failed"
                  (server (sent w) (rename_request base (FileItem.path item) target)) with
          | Ok _ => [list_request base cp]
          | _ => []
          end)%list.
Proof.
  intros Ht Hne target. unfold handleRename. rewrite Ht.
  apply String.eqb_neq in Hne. rewrite Hne. cbn [negb orb].
  unfold Js.pop. fold (segments (FileItem.path item)).
  rewrite rename_target by (auto using parent_segments_truthy).
  fold target.
  unfold try_catch, bind. rewrite renamePath_run.
  destruct (settle _ _) as [v|e|].
  - unfold setStatus, setState. rewrite refresh_run. cbv zeta.
    destruct (settle _ _); cbn [fst sent record];
      rewrite <- app_assoc; reflexivity.
  - reflexivity.
  - reflexivity.
Qed.

End AppClaims.


Lemma crumbs_segments (cp : string) : crumbs cp = segments cp.
Proof. unfold crumbs, segments. destruct cp; reflexivity. Qed.

Lemma nth_error_map_index_from {A B : Type} (f : A -> nat -> B) (xs : list A)
  (k i : nat) :
  nth_error (map_index_from k f xs) i =
    option_map (fun x => f x (k + i)) (nth_error xs i).
Proof.
  revert k i. induction xs as [|x rest IH]; intros k i.
  - destruct i; reflexivity.
  - destruct i as [|i]; cbn [map_index_from nth_error option_map].
    + rewrite Nat.add_0_r. reflexivity.
    + rewrite IH. rewrite Nat.add_succ_comm. reflexivity.
Qed.

Lemma firstn_Forall {A : Type} (P : A -> Prop) (n : nat) (xs : list A) :
  Forall P xs -> Forall P (firstn n xs).
Proof.
  intros H. revert n. induction H as [|x rest Hx _ IH]; intros [|n]; cbn;
    constructor; auto.
Qed.

Lemma valid_names_path (xs : list string) :
  xs <> [] ->
  Forall (fun s => valid_name s = true) xs ->
  valid_path (Js.join "/" xs) = true.
Proof.
  intros Hne Hall. unfold valid_path.
  rewrite split_join.
  - apply forallb_forall. rewrite Forall_forall in Hall. exact Hall.
  - exact Hne.
  - eapply Forall_impl; [|exact Hall].
    intros s Hs. unfold valid_name in Hs.
    apply andb_true_iff in Hs. destruct Hs as [Hs _].
    apply segment_ok_spec in Hs. tauto.
Qed.




(** C3, as the client behaves: the client checks a prompted name for
    emptiness only, not for [.], [..] or separators.  A cancelled or empty
    prompt sends nothing, and so does a rename to the item's current name.
    Every other prompted text is sent as it is: as the folder name, and in
    the rename target after the item's parent segments.  When the prompted
    text is a single well-formed name and the item's own path has no [.]
    or [..] segment, the rename target has no empty segment, no [.] or [..]
    segment and no separator inside a segment. *)
Theorem prompted_name_sent_verbatim (base : option string)
  (server : list http_request -> http_request -> fetch_result)
  (cp : string) (item : FileItem.t) (w : World) :
  handleCreateFolder base server cp None w = (w, Ok tt) /\
  handleCreateFolder base server cp (Some EmptyString) w = (w, Ok tt) /\
  handleRename base server cp item None w = (w, Ok tt) /\
  handleRename base server cp item (Some EmptyString) w = (w, Ok tt) /\
  handleRename base server cp item (Some (FileItem.name item)) w = (w, Ok tt) /\
  (forall name,
     name <> EmptyString ->
     let target :=
       Js.join "/" (removelast (segments (FileItem.path item)) ++ [name])%list in
     (exists rest,
        sent (fst (handleCreateFolder base server cp (Some name) w)) =
          (sent w ++ folder_request base cp name :: rest)%list) /\
     (name <> FileItem.name item ->
      exists rest,
        sent (fst (handleRename base server cp item (Some name) w)) =
          (sent w ++ rename_request base (FileItem.path item) target :: rest)%list) /\
     (valid_name name = true ->
      Forall (fun s => not_dot s = true) (segments (FileItem.path item)) ->
      valid_path target = true)).
Proof.
  split; [reflexivity|]. split; [reflexivity|].
  split; [apply handleRename_idle; auto|].
  split; [apply handleRename_idle; auto|].
  split; [apply handleRename_idle; auto|].
  intros name Hne target.
  assert (Ht : Js.truthy name = true) by (destruct name; [congruence|reflexivity]).
  split; [|split].
  - eexists. apply handleCreateFolder_sent. exact Ht.
  - intros Hname. eexists. apply handleRename_sent; assumption.
  - intros Hvalid Hdots. apply valid_names_path.
    + destruct (removelast (segments (FileItem.path item))); discriminate.
    + apply Forall_app. split.
      * apply removelast_Forall.
        pose proof (segments_ok (FileItem.path item)) as Hok.
        rewrite Forall_forall in *. intros s Hs. unfold valid_name.
        rewrite (Hok s Hs), (Hdots s Hs). reflexivity.
      * constructor; [assumption|constructor].
Qed.

Lemma prompted_name_sent_verbatim_witness :
  handleRename None docs_server "docs" sample_item (Some "a.txt") docs_world
    = (docs_world, Ok tt) /\
  (exists rest,
     sent (fst (handleCreateFolder None docs_server "docs" (Some "new") docs_world)) =
       (sent docs_world ++ folder_request None "docs" "new" :: rest)%list) /\
  (exists rest,
     sent (fst (handleRename None docs_server "docs" sample_item (Some "new")
                  docs_world)) =
       (sent docs_world ++ rename_request None "docs/a.txt" "docs/new" :: rest)%list) /\
  valid_path "docs/new" = true.
Proof.
  destruct (prompted_name_sent_verbatim None docs_server "docs" sample_item docs_world)
    as [_ [_ [_ [_ [Hsame Hsent]]]]].
  split; [exact Hsame|].
  destruct (Hsent "new") as [Hfolder [Hrename Hvalid]]; [discriminate|].
  split; [exact Hfolder|]. split.
  - apply Hrename. discriminate.
  - apply Hvalid; [reflexivity|].
    repeat constructor.
Defined.

(** C3 fails as stated: on the page that lists [docs], the prompted folder
    names [..] and [a/b] are sent as they are, and renaming [a.txt] to
    [../x] sends a target with a [..] segment. *)
Lemma prompted_names_unchecked :
  sent (fst (dispatch None docs_server (ClickNewFolder (Some "..")) docs_world))
    = [list_request None EmptyString; folder_request None "docs" "..";
       list_request None "docs"] /\
  valid_name ".." = false /\
  sent (fst (dispatch None docs_server (ClickNewFolder (Some "a/b")) docs_world))
    = [list_request None EmptyString; folder_request None "docs" "a/b";
       list_request None "docs"] /\
  valid_name "a/b" = false /\
  sent (fst (dispatch None docs_server (ClickRename 0 (Some "../x")) docs_world))
    = [list_request None EmptyString; rename_request None "docs/a.txt" "docs/../x";
       list_request None "docs"] /\
  valid_path "docs/../x" = false.
Proof.
  repeat split.
Qed.



Lemma indexed_parent (l : DirectoryListing.t) :
  indexed l ->
  (DirectoryListing.parent l = None <-> DirectoryListing.path l = EmptyString).
Proof.
  intros [vp [entries [Hvp ->]]]. cbn [DirectoryIndexer_list DirectoryListing.parent
                                       DirectoryListing.path].
  apply Forall_segment_ok in Hvp. destruct Hvp as [Ht _].
  rewrite (join_empty_iff vp Ht).
  destruct vp; split; intros H; try reflexivity; discriminate.
Qed.

(** C7: a listing carries its path, a nullable parent and its entries; the
    parent is null exactly for the root, the empty path.  With a server
    whose listings have the declared type and come from the indexer, "Up
    One Level" is disabled exactly when the listing shown is the root's
    (and before any listing arrived); otherwise its click navigates to the
    listing's parent. *)
Theorem up_one_level (base : option string)
  (server : list http_request -> http_request -> fetch_result) (w : World) :
  typed_server base server ->
  serves_indexed_listings server ->
  reachable base server w ->
  let cp := AppState.currentPath (ui w) in
  let toolbar := Toolbar cp (isRoot cp) in
  match AppState.listing (ui w) with
  | None =>
      up_disabled toolbar = true /\ dispatch base server ClickUp w = (w, Ok tt)
  | Some l =>
      (DirectoryListing.parent l = None <-> DirectoryListing.path l = EmptyString) /\
      (up_disabled toolbar = true <-> DirectoryListing.path l = EmptyString) /\
      (up_disabled toolbar = true -> dispatch base server ClickUp w = (w, Ok tt)) /\
      (up_disabled toolbar = false ->
       exists parent,
         DirectoryListing.parent l = Some parent /\
         dispatch base server ClickUp w = navigateTo base server cp parent w /\
         sent (fst (dispatch base server ClickUp w))
           = (sent w ++ [list_request base parent])%list)
  end.
Proof.
  intros _ Hs Hr cp toolbar.
  destruct (reachable_state_ok base server w Hs Hr) as [Hsync Hidx].
  unfold in_sync in Hsync. subst toolbar. cbn [Toolbar up_disabled].
  destruct (AppState.listing (ui w)) as [l|] eqn:Hl.
  - specialize (Hidx l eq_refl). pose proof (indexed_parent l Hidx) as Hpar.
    fold cp in Hsync.
    assert (Hroot : isRoot cp = true <-> DirectoryListing.path l = EmptyString).
    { rewrite <- Hsync. unfold isRoot. destruct cp; split; intros H;
        try reflexivity; discriminate. }
    split; [exact Hpar|]. split; [exact Hroot|]. split.
    + intros Hd. unfold dispatch. fold cp. cbn [Toolbar up_disabled].
      rewrite Hd. reflexivity.
    + intros Hd.
      destruct (DirectoryListing.parent l) as [parent|] eqn:Hp.
      * exists parent. split; [reflexivity|].
        assert (Hgo : dispatch base server ClickUp w
                      = navigateTo base server cp parent w).
        { unfold dispatch. fold cp. cbn [Toolbar up_disabled]. rewrite Hd.
          unfold goUp, navigateTo. rewrite Hl, Hp. reflexivity. }
        split; [exact Hgo|]. rewrite Hgo. unfold navigateTo. apply refresh_sent.
      * destruct Hpar as [Hpar _]. specialize (Hpar eq_refl).
        apply Hroot in Hpar. congruence.
  - fold cp in Hsync. unfold dispatch. fold cp. cbn [Toolbar up_disabled].
    rewrite Hsync. split; reflexivity.
Qed.

Lemma docs_server_indexed : serves_indexed_listings docs_server.
Proof.
  intros log req r v l Hr Hb Hv. unfold docs_server in Hr.
  destruct (req_method req); injection Hr as <-; cbn in Hb; injection Hb as <-;
    cbv in Hv; try discriminate.
  injection Hv as <-.
  exists ["docs"], [sample_item]. split; [repeat constructor|reflexivity].
Defined.

Lemma reports_server_indexed : serves_indexed_listings reports_server.
Proof.
  intros log req r v l Hr Hb Hv. unfold reports_server in Hr.
  destruct (req_method req); [|destruct (req_body req) as [[t|fd]|]| |];
    injection Hr as <-; cbn in Hb; injection Hb as <-;
    cbv in Hv; try discriminate.
  injection Hv as <-.
  exists ["docs"; "reports"; "2024"], [q1_item].
  split; [repeat constructor|reflexivity].
Defined.

Lemma reports_server_typed : typed_server None reports_server.
Proof.
  split.
  - intros log path r v Hr _ Hb. cbn in Hr. injection Hr as <-.
    cbn in Hb. injection Hb as <-. eexists. reflexivity.
  - intros log path files r v Hr _ Hb. cbn in Hr. injection Hr as <-.
    cbn in Hb. injection Hb as <-. eexists. reflexivity.
Defined.

Lemma up_one_level_witness :
  AppState.currentPath (ui reports_world) = "docs/reports/2024" /\
  sent (fst (dispatch None reports_server ClickUp reports_world))
    = [list_request None EmptyString; list_request None "docs/reports"].
Proof.
  pose proof (up_one_level None reports_server reports_world reports_server_typed
                reports_server_indexed
                (reachable_step None reports_server fresh_world Mount
                   (reachable_initial None reports_server))) as H.
  cbn in H. destruct H as [_ [_ [_ H]]].
  destruct (H eq_refl) as [parent [Hp [_ Hsent]]].
  injection Hp as <-. split; [reflexivity|exact Hsent].
Defined.

(** ** Further properties of the client *)

(** *** Query strings *)

Lemma decode_encode_byte (c : ascii) (rest : string) :
  FormUrlencoded.decode (URLSearchParams.encode_byte c ++ rest)
  = String c (FormUrlencoded.decode rest).
Proof.
  destruct c as [b0 b1 b2 b3 b4 b5 b6 b7].
  destruct b0, b1, b2, b3, b4, b5, b6, b7; reflexivity.
Qed.

Lemma decode_encode (s : string) :
  FormUrlencoded.decode (URLSearchParams.encode s) = s.
Proof.
  induction s as [|c rest IH]; [reflexivity|].
  cbn [URLSearchParams.encode]. rewrite decode_encode_byte, IH. reflexivity.
Qed.

Lemma encode_byte_safe (c : ascii) :
  FormUrlencoded.all_safe (URLSearchParams.encode_byte c) = true.
Proof.
  destruct c as [b0 b1 b2 b3 b4 b5 b6 b7].
  destruct b0, b1, b2, b3, b4, b5, b6, b7; reflexivity.
Qed.

Lemma all_safe_app (a b : string) :
  FormUrlencoded.all_safe (a ++ b)
  = FormUrlencoded.all_safe a && FormUrlencoded.all_safe b.
Proof.
  induction a as [|c a IH]; [reflexivity|].
  cbn [String.append FormUrlencoded.all_safe]. rewrite IH, andb_assoc. reflexivity.
Qed.

Lemma encode_safe (s : string) :
  FormUrlencoded.all_safe (URLSearchParams.encode s) = true.
Proof.
  induction s as [|c rest IH]; [reflexivity|].
  cbn [URLSearchParams.encode]. rewrite all_safe_app, encode_byte_safe, IH.
  reflexivity.
Qed.

Lemma encode_injective (p q : string) :
  URLSearchParams.encode p = URLSearchParams.encode q -> p = q.
Proof.
  intros H. rewrite <- (decode_encode p), <- (decode_encode q), H. reflexivity.
Qed.

Lemma append_inv_head (a b c : string) : a ++ b = a ++ c -> b = c.
Proof.
  induction a as [|x a IH]; cbn [String.append]; intros H; [exact H|].
  injection H as H. exact (IH H).
Qed.

(** X1: the download link of a path is the API base, the download endpoint
    and one [path] parameter whose value is made of unreserved bytes, [+]
    and [%] only, and decodes back to the path. *)
Theorem downloadUrl_query (base : option string) (path : string) :
  exists value : string,
    downloadUrl base path = API_BASE base ++ "/api/files/download?path=" ++ value /\
    FormUrlencoded.all_safe value = true /\
    FormUrlencoded.decode value = path.
Proof.
  exists (URLSearchParams.encode path).
  split; [reflexivity|]. split; [apply encode_safe|apply decode_encode].
Qed.

(** X2: two paths with the same download link, the same listing request or
    the same delete request are the same path. *)
Theorem urls_distinguish_paths (base : option string)
  (server : list http_request -> http_request -> fetch_result)
  (p q : string) (w : World) :
  (downloadUrl base p = downloadUrl base q -> p = q) /\
  (sent (fst (getDirectory base server p w)) = sent (fst (getDirectory base server q w))
   -> p = q) /\
  (sent (fst (deletePath base server p w)) = sent (fst (deletePath base server q w))
   -> p = q).
Proof.
  split; [|split].
  - unfold downloadUrl. intros H.
    apply append_inv_head in H. apply (append_inv_head "/api/files/download?") in H.
    apply (append_inv_head "path=") in H. apply encode_injective. exact H.
  - rewrite !getDirectory_run. unfold record, list_request; cbn [fst sent].
    intros H. apply app_inv_head in H. injection H as H.
    apply append_inv_head in H. apply (append_inv_head "/api/files?") in H.
    destruct p as [|c p], q as [|d q]; cbn [Js.truthy] in H.
    + reflexivity.
    + discriminate.
    + discriminate.
    + apply (append_inv_head "path=") in H. apply encode_injective. exact H.
  - rewrite !deletePath_run. unfold record, delete_request; cbn [fst sent].
    intros H. apply app_inv_head in H. injection H as H.
    apply append_inv_head in H.
    apply (append_inv_head "/api/files?path=") in H.
    apply encode_injective. exact H.
Qed.

Lemma urls_distinguish_paths_witness :
  downloadUrl None "a b" = "/api/files/download?path=a+b" /\
  (downloadUrl None "a b" = downloadUrl None "a b" -> "a b" = "a b").
Proof.
  split; [reflexivity|].
  exact (proj1 (urls_distinguish_paths None docs_server "a b" "a b" fresh_world)).
Defined.

(** *** The API base *)

Lemma strip_trailing_slash_snoc (b : string) :
  Js.strip_trailing_slash (b ++ "/") = b.
Proof.
  induction b as [|c r IH]; [reflexivity|].
  cbn [String.append]. cbn [Js.strip_trailing_slash].
  destruct r as [|d r']; [reflexivity|].
  cbn [String.append] in *. rewrite IH. reflexivity.
Qed.

Lemma strip_trailing_slash_id (b : string) :
  ends_with_slash b = false -> Js.strip_trailing_slash b = b.
Proof.
  induction b as [|c r IH]; intros H; [reflexivity|].
  cbn [Js.strip_trailing_slash ends_with_slash] in *. destruct r as [|d r'].
  - rewrite H. reflexivity.
  - rewrite (IH H). reflexivity.
Qed.

(** X3: one trailing slash of the configured base is dropped and nothing
    else: a base with and without it give the same [API_BASE], and an
    absent setting gives the empty base. *)
Theorem API_BASE_trailing_slash (b : string) :
  API_BASE (Some (b ++ "/")) = b /\
  (ends_with_slash b = false -> API_BASE (Some b) = b) /\
  API_BASE None = EmptyString.
Proof.
  unfold API_BASE. split; [apply strip_trailing_slash_snoc|].
  split; [apply strip_trailing_slash_id|reflexivity].
Qed.

Lemma API_BASE_trailing_slash_witness :
  API_BASE (Some "http://host:8000/") = "http://host:8000" /\
  API_BASE (Some "http://host:8000") = "http://host:8000".
Proof.
  split.
  - exact (proj1 (API_BASE_trailing_slash "http://host:8000")).
  - exact (proj1 (proj2 (API_BASE_trailing_slash "http://host:8000")) eq_refl).
Defined.

(** *** JSON request bodies *)

Lemma read_escape (c : ascii) (rest : string) :
  JsonText.read_string (Json.escape c ++ rest)
  = match JsonText.read_string rest with
    | Some (body, rest') => Some (String c body, rest')
    | None => None
    end.
Proof.
  destruct c as [b0 b1 b2 b3 b4 b5 b6 b7].
  destruct b0, b1, b2, b3, b4, b5, b6, b7; reflexivity.
Qed.

(** A literal written by [JSON.stringify] reads back as the string, and
    the reading stops at its closing quote. *)
Lemma read_quote (s rest : string) :
  Json.quote s ++ rest
  = String Json.quote_char (Json.escape_all s ++ String Json.quote_char rest) /\
  JsonText.read_string (Json.escape_all s ++ String Json.quote_char rest)
  = Some (s, rest).
Proof.
  split.
  - unfold Json.quote. cbn [String.append]. rewrite append_assoc. reflexivity.
  - induction s as [|c s IH]; [reflexivity|].
    cbn [Json.escape_all]. rewrite append_assoc, read_escape, IH. reflexivity.
Qed.

Lemma quote_inv (a b r r' : string) :
  Json.quote a ++ r = Json.quote b ++ r' -> a = b /\ r = r'.
Proof.
  intros H.
  rewrite (proj1 (read_quote a r)), (proj1 (read_quote b r')) in H.
  injection H as H.
  pose proof (proj2 (read_quote a r)) as Ha. rewrite H in Ha.
  rewrite (proj2 (read_quote b r')) in Ha. injection Ha as -> ->. split; reflexivity.
Qed.

(** The text of an object with two string fields. *)
Lemma stringify_two_fields (k1 v1 k2 v2 : string) :
  Json.stringify (JObj [(k1, JStr v1); (k2, JStr v2)])
  = "{" ++ Json.quote k1 ++ ":" ++ Json.quote v1 ++ ","
        ++ Json.quote k2 ++ ":" ++ Json.quote v2 ++ "}".
Proof.
  cbn [Json.stringify map Js.join]. rewrite !append_assoc. reflexivity.
Qed.

Lemma two_fields_inv (k1 k2 v1 v2 v1' v2' : string) :
  Json.stringify (JObj [(k1, JStr v1); (k2, JStr v2)])
  = Json.stringify (JObj [(k1, JStr v1'); (k2, JStr v2')]) ->
  v1 = v1' /\ v2 = v2'.
Proof.
  rewrite !stringify_two_fields. intros H.
  apply (append_inv_head "{") in H.
  apply (append_inv_head (Json.quote k1)) in H.
  apply (append_inv_head ":") in H.
  apply quote_inv in H. destruct H as [-> H].
  apply (append_inv_head ",") in H.
  apply (append_inv_head (Json.quote k2)) in H.
  apply (append_inv_head ":") in H.
  apply quote_inv in H. destruct H as [-> _]. split; reflexivity.
Qed.

Lemma body_text_inv (s t : string) :
  Some (BodyText s) = Some (BodyText t) -> s = t.
Proof. intros H. injection H as H. exact H. Qed.

Lemma singleton_inv {A : Type} (x y : A) : [x] = [y] -> x = y.
Proof. intros H. injection H as H. exact H. Qed.

(** X4: creating a folder sends one POST to [/api/files/folder] with the
    JSON text of [{parent, name}], leaves the page state alone, and
    resolves when the response is in the success range with a JSON body. *)
Theorem createFolder_request_and_outcome (base : option string)
  (server : list http_request -> http_request -> fetch_result)
  (parent name : string) (w : World) :
  exists req : http_request,
    fst (createFolder base server parent name w)
      = {| sent := (sent w ++ [req])%list; ui := ui w |} /\
    req = {| req_url := API_BASE base ++ "/api/files/folder";
             req_method := POST;
             req_headers := [("Content-Type", "application/json")];
             req_body :=
               Some (BodyText ("{" ++ Json.quote "parent" ++ ":" ++ Json.quote parent
                               ++ "," ++ Json.quote "name" ++ ":" ++ Json.quote name
                               ++ "}")) |} /\
    (forall r v,
       server (sent w) req = Responded r ->
       ok r = true ->
       body r = Parsed v ->
       snd (createFolder base server parent name w) = Ok tt).
Proof.
  exists (folder_request base parent name).
  rewrite createFolder_run. cbn [fst snd]. split; [reflexivity|]. split.
  - unfold folder_request. rewrite stringify_two_fields. reflexivity.
  - intros r v Hr Hok Hb. rewrite Hr. unfold settle. rewrite Hok, Hb. reflexivity.
Qed.

Lemma createFolder_request_and_outcome_witness :
  createFolder None docs_server "docs" "new" fresh_world
    = ({| sent := [folder_request None "docs" "new"]; ui := AppState.initial |}, Ok tt).
Proof.
  destruct (createFolder_request_and_outcome None docs_server "docs" "new" fresh_world)
    as [req [Hw [Hreq Hres]]].
  rewrite (surjective_pairing (createFolder None docs_server "docs" "new" fresh_world)).
  rewrite Hw, (Hres {| status := 200; statusText := "OK";
                       body := Parsed (JObj [("ok", JBool true)]) |}
                 (JObj [("ok", JBool true)])).
  - rewrite Hreq. reflexivity.
  - rewrite Hreq. reflexivity.
  - reflexivity.
  - reflexivity.
Defined.

(** X5: the JSON bodies are unambiguous.  Two folder requests with the
    same body have the same parent and name, and two rename requests with
    the same body have the same source and destination, whatever characters
    the names hold. *)
Theorem json_bodies_unambiguous (base : option string)
  (server : list http_request -> http_request -> fetch_result)
  (a b a' b' : string) (w : World) :
  (sent (fst (createFolder base server a b w))
   = sent (fst (createFolder base server a' b' w)) -> a = a' /\ b = b') /\
  (sent (fst (renamePath base server a b w))
   = sent (fst (renamePath base server a' b' w)) -> a = a' /\ b = b').
Proof.
  split.
  - rewrite !createFolder_run. unfold record, folder_request; cbn [fst sent].
    intros H. apply app_inv_head in H.
    apply singleton_inv in H.
    apply (f_equal req_body) in H. cbn [req_body] in H.
    apply body_text_inv in H.
    apply two_fields_inv in H. exact H.
  - rewrite !renamePath_run. unfold record, rename_request; cbn [fst sent].
    intros H. apply app_inv_head in H.
    apply singleton_inv in H.
    apply (f_equal req_body) in H. cbn [req_body] in H.
    apply body_text_inv in H.
    apply two_fields_inv in H. exact H.
Qed.

Lemma json_bodies_unambiguous_witness :
  sent (fst (createFolder None docs_server "docs" "a,b" fresh_world))
  = sent (fst (createFolder None docs_server "docs" "a,b" fresh_world)) /\
  "docs" = "docs" /\ "a,b" = "a,b".
Proof.
  split; [reflexivity|].
  exact (proj1 (json_bodies_unambiguous None docs_server "docs" "a,b" "docs" "a,b"
                  fresh_world) eq_refl).
Defined.

(** *** How a call ends *)

Lemma run_call_settled (base : option string)
  (server : list http_request -> http_request -> fetch_result)
  (call : api_call) (w : World) (req : http_request) :
  sent (fst (run_call base server call w)) = (sent w ++ [req])%list ->
  req = request_of base call.
Proof.
  rewrite run_call_world. apply sent_record_inv.
Qed.

Lemma run_call_outcome (base : option string)
  (server : list http_request -> http_request -> fetch_result)
  (call : api_call) (w : World) :
  snd (run_call base server call w) =
    match server (sent w) (request_of base call) with
    | Rejected why => Throw (TypeError why)
    | Responded r =>
        if ok r then
          match body r with
          | Unparseable why => Throw (SyntaxError why)
          | Parsed v =>
              match call with
              | CallList _ =>
                  match from_json (T := DirectoryListing.t) v with
                  | Some _ => Ok tt
                  | None => IllTyped
                  end
              | CallUpload _ _ =>
                  match from_json (T := UploadResult) v with
                  | Some _ => Ok tt
                  | None => IllTyped
                  end
              | _ => Ok tt
              end
          end
        else Throw (failure (fallback_of call) r)
    end.
Proof.
  destruct call; unfold run_call; try unfold bind;
    rewrite ?getDirectory_run, ?uploadFiles_run, ?createFolder_run,
      ?renamePath_run, ?deletePath_run; cbn [request_of snd fst];
    unfold settle;
    (destruct (server _ _) as [r|why]; [|reflexivity]);
    (destruct (ok r); [|reflexivity]);
    (destruct (body r) as [v|why]; [|reflexivity]);
    try reflexivity;
    match goal with |- context [from_json ?v] => destruct (from_json v) end;
    reflexivity.
Qed.

(** X6: a success response must carry JSON.  Whatever the operation, a
    response in the success range whose body is not JSON (an empty 204,
    say) makes the call reject with the parser's [SyntaxError]. *)
Theorem success_without_json_rejects (base : option string)
  (server : list http_request -> http_request -> fetch_result)
  (call : api_call) (w : World) (req : http_request) (r : Response) (why : string) :
  sent (fst (run_call base server call w)) = (sent w ++ [req])%list ->
  server (sent w) req = Responded r ->
  ok r = true ->
  body r = Unparseable why ->
  snd (run_call base server call w) = Throw (SyntaxError why).
Proof.
  intros Hsent Hr Hok Hb. apply run_call_settled in Hsent. subst req.
  rewrite run_call_outcome, Hr, Hok, Hb. reflexivity.
Qed.

Lemma success_without_json_rejects_witness :
  snd (run_call None no_content_server (CallCreateFolder "docs" "new") fresh_world)
    = Throw (SyntaxError "Unexpected end of JSON input").
Proof.
  exact (success_without_json_rejects None no_content_server
           (CallCreateFolder "docs" "new") fresh_world
           (folder_request None "docs" "new")
           {| status := 204; statusText := "No Content";
              body := Unparseable "Unexpected end of JSON input" |}
           "Unexpected end of JSON input" eq_refl eq_refl eq_refl eq_refl).
Defined.

(** X7: when the request cannot be made at all, the call rejects with the
    [TypeError] of [fetch]; one request was attempted and the page state is
    untouched. *)
Theorem network_failure_rejects (base : option string)
  (server : list http_request -> http_request -> fetch_result)
  (call : api_call) (w : World) (req : http_request) (why : string) :
  sent (fst (run_call base server call w)) = (sent w ++ [req])%list ->
  server (sent w) req = Rejected why ->
  snd (run_call base server call w) = Throw (TypeError why) /\
  ui (fst (run_call base server call w)) = ui w.
Proof.
  intros Hsent Hr. apply run_call_settled in Hsent. subst req.
  rewrite run_call_outcome, Hr, run_call_world. split; reflexivity.
Qed.

Lemma network_failure_rejects_witness :
  snd (run_call None unreachable_server (CallList "docs") fresh_world)
    = Throw (TypeError "Failed to fetch").
Proof.
  exact (proj1 (network_failure_rejects None unreachable_server (CallList "docs")
                  fresh_world (list_request None "docs") "Failed to fetch"
                  eq_refl eq_refl)).
Defined.

(** X8: an error body that is JSON but has no usable [detail] (none, or
    null, or the body is not an object) gives the fixed message: "Upload
    failed" for an upload and "Request failed" for the other operations. *)
Theorem error_without_detail_message (base : option string)
  (server : list http_request -> http_request -> fetch_result)
  (call : api_call) (w : World) (req : http_request) (r : Response) (v : json) :
  sent (fst (run_call base server call w)) = (sent w ++ [req])%list ->
  server (sent w) req = Responded r ->
  ok r = false ->
  body r = Parsed v ->
  v <> JNull ->
  (forall props, v = JObj props ->
     Json.assoc "detail" props = None \/ Json.assoc "detail" props = Some JNull) ->
  snd (run_call base server call w) =
    Throw (Error match call with
                 | CallUpload _ _ => "Upload failed"
                 | _ => "Request failed"
                 end).
Proof.
  intros Hsent Hr Hok Hb Hnull Hdetail. apply run_call_settled in Hsent. subst req.
  rewrite run_call_outcome, Hr, Hok. unfold failure. rewrite Hb.
  destruct v as [|b|t|s|items|props]; try congruence;
    try (destruct call; reflexivity).
  destruct (Hdetail props eq_refl) as [-> | ->]; destruct call; reflexivity.
Qed.

Lemma error_without_detail_message_witness :
  snd (run_call None terse_server (CallUpload "docs" (OfArray sample_files)) fresh_world)
    = Throw (Error "Upload failed").
Proof.
  apply (error_without_detail_message None terse_server
           (CallUpload "docs" (OfArray sample_files)) fresh_world
           (upload_request None "docs" sample_files)
           {| status := 500; statusText := "Internal Server Error";
              body := Parsed (JObj [("error", JStr "boom")]) |}
           (JObj [("error", JStr "boom")])); try reflexivity.
  - discriminate.
  - intros props H. injection H as <-. left. reflexivity.
Defined.



(** *** Loading a directory *)

(** X10: what [refresh] leaves behind.  It sends the one listing request,
    turns "Loading" off and leaves the status line alone, whatever the
    answer.  A listing puts its path and itself into the state and clears
    the error.  Every error of the request (no connection, a body that is
    not JSON, an error response) is caught: path and listing stay and the
    error's message is shown.  With a server that honours the declared
    types [refresh] always resolves. *)
Theorem refresh_effects (base : option string)
  (server : list http_request -> http_request -> fetch_result)
  (cp : string) (path : option string) (w : World) :
  let p := match path with Some p => p | None => cp end in
  let w' := fst (refresh base server cp path w) in
  sent w' = (sent w ++ [list_request base p])%list /\
  AppState.loading (ui w') = false /\
  AppState.status (ui w') = AppState.status (ui w) /\
  (forall l,
     snd (getDirectory base server p w) = Ok l ->
     refresh base server cp path w
     = ({| sent := (sent w ++ [list_request base p])%list;
           ui := AppState.mk (DirectoryListing.path l) (Some l) false None
                   (AppState.status (ui w)) |}, Ok tt)) /\
  (forall e,
     snd (getDirectory base server p w) = Throw e ->
     refresh base server cp path w
     = ({| sent := (sent w ++ [list_request base p])%list;
           ui := AppState.mk (AppState.currentPath (ui w)) (AppState.listing (ui w))
                   false (Some (message_of e)) (AppState.status (ui w)) |}, Ok tt)) /\
  (typed_server base server -> snd (refresh base server cp path w) = Ok tt).
Proof.
  intros p w'. subst w'. rewrite refresh_run, getDirectory_run. fold p.
  cbv zeta. cbn [fst snd sent ui].
  split; [reflexivity|]. split; [destruct (settle _ _); reflexivity|].
  split; [destruct (settle _ _); reflexivity|].
  split; [intros l ->; reflexivity|].
  split; [intros e ->; reflexivity|].
  intros [Hlist _]. unfold settle.
  destruct (server (sent w) (list_request base p)) as [r|why] eqn:Hr; [|reflexivity].
  destruct (ok r) eqn:Hok; [|reflexivity].
  destruct (body r) as [v|why] eqn:Hb; [|reflexivity].
  destruct (Hlist _ _ _ _ Hr Hok Hb) as [l ->]. reflexivity.
Qed.

Lemma refresh_effects_witness :
  refresh None unreachable_server EmptyString (Some "docs") fresh_world
  = ({| sent := [list_request None "docs"];
        ui := AppState.mk EmptyString None false (Some "Failed to fetch") None |},
     Ok tt) /\
  snd (refresh None reports_server EmptyString (Some "docs") fresh_world) = Ok tt.
Proof.
  split.
  - exact (proj1 (proj2 (proj2 (proj2 (proj2
             (refresh_effects None unreachable_server EmptyString (Some "docs")
                fresh_world)))))
             (TypeError "Failed to fetch") eq_refl).
  - exact (proj2 (proj2 (proj2 (proj2 (proj2
             (refresh_effects None reports_server EmptyString (Some "docs")
                fresh_world)))))
             reports_server_typed).
Defined.

(** *** What every handler keeps *)

Section Keeping.

Variable base : option string.
Variable server : list http_request -> http_request -> fetch_result.

(** A property of the page state that the status line and the error line
    do not touch and that holds again after every [refresh]. *)
Variable P : AppState.t -> Prop.
Hypothesis P_status : forall st s, P st -> P (with_status st s).
Hypothesis P_error : forall st e, P st -> P (with_error st e).
Hypothesis P_refresh : forall st o, P st -> P (after_refresh st o).

Lemma keeps_ret {A : Type} (a : A) : keeps P (ret a).
Proof. intros w H. exact H. Qed.

Lemma keeps_bind {A B : Type} (c : M A) (k : A -> M B) :
  keeps P c -> (forall a, keeps P (k a)) -> keeps P (bind c k).
Proof.
  intros Hc Hk w H. unfold bind.
  specialize (Hc w H). destruct (c w) as [w' [a|e|]]; cbn [fst] in *.
  - apply Hk. exact Hc.
  - exact Hc.
  - exact Hc.
Qed.

Lemma keeps_try_catch {A : Type} (c : M A) (h : js_error -> M A) :
  keeps P c -> (forall e, keeps P (h e)) -> keeps P (try_catch c h).
Proof.
  intros Hc Hh w H. unfold try_catch.
  specialize (Hc w H). destruct (c w) as [w' [a|e|]]; cbn [fst] in *.
  - exact Hc.
  - apply Hh. exact Hc.
  - exact Hc.
Qed.

Lemma keeps_setStatus (v : option string) : keeps P (setStatus v).
Proof. intros w H. exact (P_status (ui w) v H). Qed.

Lemma keeps_setError (v : option string) : keeps P (setError v).
Proof. intros w H. exact (P_error (ui w) v H). Qed.

Lemma keeps_createFolder (parent name : string) :
  keeps P (createFolder base server parent name).
Proof. intros w H. rewrite createFolder_run. exact H. Qed.

Lemma keeps_renamePath (current_path new_path : string) :
  keeps P (renamePath base server current_path new_path).
Proof. intros w H. rewrite renamePath_run. exact H. Qed.

Lemma keeps_deletePath (path : string) :
  keeps P (deletePath base server path).
Proof. intros w H. rewrite deletePath_run. exact H. Qed.

Lemma keeps_uploadFiles (path : string) (files : upload_files) :
  keeps P (uploadFiles base server path files).
Proof. intros w H. rewrite uploadFiles_run. exact H. Qed.

Lemma keeps_refresh (cp : string) (path : option string) :
  keeps P (refresh base server cp path).
Proof.
  intros w H. rewrite refresh_run. cbn [fst ui]. apply P_refresh. exact H.
Qed.

Create HintDb keeps.

#[local] Hint Resolve keeps_ret keeps_setStatus keeps_setError
  keeps_createFolder keeps_renamePath keeps_deletePath
  keeps_uploadFiles keeps_refresh : keeps.

Ltac keeps_step :=
  first [ solve [auto with keeps]
        | apply keeps_try_catch; [|intros ?]
        | apply keeps_bind; [|intros ?] ].

Lemma keeps_dispatch (ev : event) : keeps P (dispatch base server ev).
Proof.
  intros w H.
  assert (Hh : forall c : M unit, keeps P c -> P (ui (fst (c w))))
    by (intros c Hc; apply Hc; exact H).
  destruct ev; unfold dispatch, navigateTo;
    repeat match goal with
           | |- context [if ?b then _ else _] => destruct b
           | |- context [match nth_error ?l ?i with _ => _ end] =>
               destruct (nth_error l i)
           end;
    try exact H; apply Hh;
    unfold handleCreateFolder, handleDelete, handleRename, handleFiles,
      handleUploadComplete, handleError, goUp;
    repeat match goal with
           | |- context [match ?p with Some _ => _ | None => _ end] => destruct p
           | |- context [if ?b then _ else _] => destruct b
           end;
    repeat keeps_step.
Qed.

End Keeping.

Lemma in_sync_after_refresh (st : AppState.t) (o : outcome DirectoryListing.t) :
  in_sync st -> in_sync (after_refresh st o).
Proof. intros H. destruct o; [reflexivity|exact H|exact H]. Qed.

Lemma loading_off_after_refresh (st : AppState.t) (o : outcome DirectoryListing.t) :
  AppState.loading st = false -> AppState.loading (after_refresh st o) = false.
Proof. intros _. destruct o; reflexivity. Qed.

(** X11: with a server that honours the declared types, the path the page
    works in is always the path of the listing it shows, and the root
    before any listing came. *)
Theorem reachable_in_sync (base : option string)
  (server : list http_request -> http_request -> fetch_result) (w : World) :
  typed_server base server ->
  reachable base server w ->
  match AppState.listing (ui w) with
  | Some l => AppState.currentPath (ui w) = DirectoryListing.path l
  | None => AppState.currentPath (ui w) = EmptyString
  end.
Proof.
  intros _ Hr. change (in_sync (ui w)).
  induction Hr as [|w ev _ IH]; [reflexivity|].
  apply (keeps_dispatch base server in_sync); try exact IH.
  - intros st s H. exact H.
  - intros st e H. exact H.
  - apply in_sync_after_refresh.
Qed.

Lemma reachable_in_sync_witness :
  AppState.currentPath (ui reports_world) = "docs/reports/2024".
Proof.
  exact (reachable_in_sync None reports_server reports_world reports_server_typed
           (reachable_step None reports_server fresh_world Mount
              (reachable_initial None reports_server))).
Defined.

(** *** Handlers never reject *)

Section Settling.

Variable base : option string.
Variable server : list http_request -> http_request -> fetch_result.

Lemma settles_ret : settles (ret tt).
Proof. intros w. left. reflexivity. Qed.

Lemma settles_setError (v : option string) : settles (setError v).
Proof. intros w. left. reflexivity. Qed.

Lemma settles_refresh (cp : string) (path : option string) :
  settles (refresh base server cp path).
Proof.
  intros w. rewrite refresh_run. cbn [snd].
  destruct (settle _ _); [left|left|right]; reflexivity.
Qed.

Lemma settles_try_catch (c : M unit) (h : js_error -> M unit) :
  (forall e, settles (h e)) -> settles (try_catch c h).
Proof.
  intros Hh w. unfold try_catch.
  destruct (c w) as [w' [[]|e|]]; cbn [snd].
  - left. reflexivity.
  - apply Hh.
  - right. reflexivity.
Qed.

Lemma settles_dispatch (ev : event) : settles (dispatch base server ev).
Proof.
  intros w.
  assert (Hh : forall c : M unit, settles c ->
                 snd (c w) = Ok tt \/ snd (c w) = IllTyped)
    by (intros c Hc; apply Hc).
  destruct ev; unfold dispatch, navigateTo;
    repeat match goal with
           | |- context [if ?b then _ else _] => destruct b
           | |- context [match nth_error ?l ?i with _ => _ end] =>
               destruct (nth_error l i)
           end;
    apply Hh;
    unfold handleCreateFolder, handleDelete, handleRename, handleFiles,
      handleError, goUp;
    repeat match goal with
           | |- context [match ?p with Some _ => _ | None => _ end] => destruct p
           | |- context [if ?b then _ else _] => destruct b
           end;
    first [ apply settles_ret | apply settles_refresh
          | apply settles_try_catch; intros ?; apply settles_setError ].
Qed.

Hypothesis server_typed : typed_server base server.

Lemma sound_ret {A : Type} (a : A) : sound (ret a).
Proof. intros w. discriminate. Qed.

Lemma sound_bind {A B : Type} (c : M A) (k : A -> M B) :
  sound c -> (forall a, sound (k a)) -> sound (bind c k).
Proof.
  intros Hc Hk w. unfold bind. specialize (Hc w).
  destruct (c w) as [w' [a|e|]]; cbn [snd] in *.
  - apply Hk.
  - discriminate.
  - exfalso. apply Hc. reflexivity.
Qed.

Lemma sound_try_catch {A : Type} (c : M A) (h : js_error -> M A) :
  sound c -> (forall e, sound (h e)) -> sound (try_catch c h).
Proof.
  intros Hc Hh w. unfold try_catch. specialize (Hc w).
  destruct (c w) as [w' [a|e|]]; cbn [snd] in *.
  - discriminate.
  - apply Hh.
  - exact Hc.
Qed.

Lemma sound_setStatus (v : option string) : sound (setStatus v).
Proof. intros w. discriminate. Qed.

Lemma sound_setError (v : option string) : sound (setError v).
Proof. intros w. discriminate. Qed.

Lemma settle_json_sound (fallback : string) (answer : fetch_result) :
  match settle (T := json) fallback answer with
  | Ok _ => @Ok unit tt
  | Throw e => Throw e
  | IllTyped => IllTyped
  end <> IllTyped.
Proof.
  unfold settle. destruct answer as [r|why]; [|discriminate].
  destruct (ok r); [|discriminate].
  destruct (body r); discriminate.
Qed.

Lemma sound_createFolder (parent name : string) :
  sound (createFolder base server parent name).
Proof. intros w. rewrite createFolder_run. apply settle_json_sound. Qed.

Lemma sound_renamePath (current_path new_path : string) :
  sound (renamePath base server current_path new_path).
Proof. intros w. rewrite renamePath_run. apply settle_json_sound. Qed.

Lemma sound_deletePath (path : string) : sound (deletePath base server path).
Proof. intros w. rewrite deletePath_run. apply settle_json_sound. Qed.

Lemma sound_uploadFiles (path : string) (files : upload_files) :
  sound (uploadFiles base server path files).
Proof.
  intros w. rewrite uploadFiles_run. cbn [snd]. unfold settle.
  destruct (server (sent w) (upload_request base path (files_of files)))
    as [r|why] eqn:Hr; [|discriminate].
  destruct (ok r) eqn:Hok; [|discriminate].
  destruct (body r) as [v|why] eqn:Hb; [|discriminate].
  destruct (proj2 server_typed _ _ _ _ _ Hr Hok Hb) as [u ->]. discriminate.
Qed.

Lemma sound_refresh (cp : string) (path : option string) :
  sound (refresh base server cp path).
Proof.
  intros w. rewrite refresh_run. cbv zeta. cbn [snd]. unfold settle.
  destruct (server (sent w) _) as [r|why] eqn:Hr; [|discriminate].
  destruct (ok r) eqn:Hok; [|discriminate].
  destruct (body r) as [v|why] eqn:Hb; [|discriminate].
  destruct (proj1 server_typed _ _ _ _ Hr Hok Hb) as [l ->]. discriminate.
Qed.

Create HintDb sound.

#[local] Hint Resolve sound_ret sound_setStatus sound_setError sound_createFolder
  sound_renamePath sound_deletePath sound_uploadFiles sound_refresh : sound.

Ltac sound_step :=
  first [ solve [auto with sound]
        | apply sound_try_catch; [|intros ?]
        | apply sound_bind; [|intros ?] ].

Lemma sound_dispatch (ev : event) : sound (dispatch base server ev).
Proof.
  intros w.
  assert (Hh : forall c : M unit, sound c -> snd (c w) <> IllTyped)
    by (intros c Hc; apply Hc).
  destruct ev; unfold dispatch, navigateTo;
    repeat match goal with
           | |- context [if ?b then _ else _] => destruct b
           | |- context [match nth_error ?l ?i with _ => _ end] =>
               destruct (nth_error l i)
           end;
    try discriminate; apply Hh;
    unfold handleCreateFolder, handleDelete, handleRename, handleFiles,
      handleUploadComplete, handleError, goUp;
    repeat match goal with
           | |- context [match ?p with Some _ => _ | None => _ end] => destruct p
           | |- context [if ?b then _ else _] => destruct b
           end;
    repeat sound_step.
Qed.

End Settling.

(** *** Mutations from the page *)

Section Mutations.

Variable base : option string.
Variable server : list http_request -> http_request -> fetch_result.

(** The shape the three mutating handlers share: the operation, then the
    status line and a reload; an error ends in the error line instead. *)
Lemma mutation_run {A : Type} (op : M A) (message cp : string) (w : World)
  (req : http_request) (o : outcome A) :
  op w = (record w req, o) ->
  try_catch
    (op ;; setStatus (Some message) ;; refresh base server cp None)
    (fun err => setError (Some (message_of err))) w
  = match o with
    | Ok _ =>
        refresh base server cp None
          {| sent := (sent w ++ [req])%list;
             ui := with_status (ui w) (Some message) |}
    | Throw e =>
        ({| sent := (sent w ++ [req])%list;
            ui := with_error (ui w) (Some (message_of e)) |}, Ok tt)
    | IllTyped => (record w req, IllTyped)
    end.
Proof.
  intros Hop. unfold try_catch, bind. rewrite Hop.
  destruct o as [a|e|]; [|reflexivity|reflexivity].
  unfold setStatus, setState. cbn [record sent ui].
  change (AppState.mk (AppState.currentPath (ui w)) (AppState.listing (ui w))
            (AppState.loading (ui w)) (AppState.error (ui w)) (Some message))
    with (with_status (ui w) (Some message)).
  destruct (settles_refresh base server cp None
              {| sent := (sent w ++ [req])%list;
                 ui := with_status (ui w) (Some message) |}) as [H|H];
    destruct (refresh base server cp None _) as [w' o'];
    cbn [snd] in H; subst o'; reflexivity.
Qed.

Lemma settle_json_ok (r : Response) (v : json) :
  ok r = true -> body r = Parsed v ->
  settle (T := json) "Request failed" (Responded r) = Ok v.
Proof. intros Hok Hb. unfold settle. rewrite Hok, Hb. reflexivity. Qed.

Lemma settle_json_detail (r : Response) (props : list (string * json)) (d : string) :
  ok r = false -> body r = Parsed (JObj props) ->
  Json.assoc "detail" props = Some (JStr d) ->
  settle (T := json) "Request failed" (Responded r) = Throw (Error d).
Proof.
  intros Hok Hb Hd. unfold settle. rewrite Hok.
  rewrite (failure_detail _ r props d Hb Hd). reflexivity.
Qed.

End Mutations.

(** X13: deleting from the page.  Without confirmation nothing is sent
    and nothing changes.  A confirmed delete that succeeds sets the status
    line to the deleted name and reloads the current directory; one that is
    refused shows the server's [detail] in the error line and sends nothing
    more. *)
Theorem handleDelete_effects (base : option string)
  (server : list http_request -> http_request -> fetch_result)
  (cp : string) (item : FileItem.t) (w : World) (r : Response) :
  server (sent w) (delete_request base (FileItem.path item)) = Responded r ->
  handleDelete base server cp item false w = (w, Ok tt) /\
  (forall v,
     ok r = true -> body r = Parsed v ->
     handleDelete base server cp item true w
     = refresh base server cp None
         {| sent := (sent w ++ [delete_request base (FileItem.path item)])%list;
            ui := with_status (ui w)
                    (Some ("Deleted " ++ quoted (FileItem.name item))) |}) /\
  (forall props d,
     ok r = false -> body r = Parsed (JObj props) ->
     Json.assoc "detail" props = Some (JStr d) ->
     handleDelete base server cp item true w
     = ({| sent := (sent w ++ [delete_request base (FileItem.path item)])%list;
           ui := with_error (ui w) (Some d) |}, Ok tt)).
Proof.
  intros Hr. split; [reflexivity|].
  unfold handleDelete. cbn [negb].
  split.
  - intros v Hok Hb.
    rewrite (mutation_run base server _ _ cp w _ _ (deletePath_run base server _ w)).
    rewrite Hr, (settle_json_ok r v Hok Hb). reflexivity.
  - intros props d Hok Hb Hd.
    rewrite (mutation_run base server _ _ cp w _ _ (deletePath_run base server _ w)).
    rewrite Hr, (settle_json_detail r props d Hok Hb Hd). reflexivity.
Qed.

Lemma handleDelete_effects_witness :
  sent (fst (handleDelete None docs_server "docs" sample_item true docs_world))
    = [list_request None EmptyString; delete_request None "docs/a.txt";
       list_request None "docs"] /\
  AppState.status (ui (fst (handleDelete None docs_server "docs" sample_item true
                              docs_world)))
    = Some ("Deleted " ++ quoted "a.txt").
Proof.
  destruct (handleDelete_effects None docs_server "docs" sample_item docs_world
              {| status := 200; statusText := "OK";
                 body := Parsed (JObj [("ok", JBool true)]) |} eq_refl)
    as [_ [Hok _]].
  rewrite (Hok _ eq_refl eq_refl). split; reflexivity.
Defined.

(** X14: creating a folder from the page.  A cancelled or empty prompt
    sends nothing and changes nothing.  Otherwise a success sets the status
    line to the new name and reloads the current directory, and a refusal
    shows the server's [detail] in the error line and sends nothing more. *)
Theorem handleCreateFolder_effects (base : option string)
  (server : list http_request -> http_request -> fetch_result)
  (cp name : string) (w : World) (r : Response) :
  name <> EmptyString ->
  server (sent w) (folder_request base cp name) = Responded r ->
  handleCreateFolder base server cp None w = (w, Ok tt) /\
  handleCreateFolder base server cp (Some EmptyString) w = (w, Ok tt) /\
  (forall v,
     ok r = true -> body r = Parsed v ->
     handleCreateFolder base server cp (Some name) w
     = refresh base server cp None
         {| sent := (sent w ++ [folder_request base cp name])%list;
            ui := with_status (ui w) (Some ("Created folder " ++ quoted name)) |}) /\
  (forall props d,
     ok r = false -> body r = Parsed (JObj props) ->
     Json.assoc "detail" props = Some (JStr d) ->
     handleCreateFolder base server cp (Some name) w
     = ({| sent := (sent w ++ [folder_request base cp name])%list;
           ui := with_error (ui w) (Some d) |}, Ok tt)).
Proof.
  intros Hne Hr. split; [reflexivity|]. split; [reflexivity|].
  unfold handleCreateFolder.
  assert (Ht : Js.truthy name = true) by (destruct name; [congruence|reflexivity]).
  rewrite Ht. cbn [negb]. split.
  - intros v Hok Hb.
    rewrite (mutation_run base server _ _ cp w _ _ (createFolder_run base server _ _ w)).
    rewrite Hr, (settle_json_ok r v Hok Hb). reflexivity.
  - intros props d Hok Hb Hd.
    rewrite (mutation_run base server _ _ cp w _ _ (createFolder_run base server _ _ w)).
    rewrite Hr, (settle_json_detail r props d Hok Hb Hd). reflexivity.
Qed.

Lemma handleCreateFolder_effects_witness :
  handleCreateFolder None refusing_server EmptyString (Some "new") fresh_world
  = ({| sent := [folder_request None EmptyString "new"];
        ui := with_error AppState.initial (Some "Path not found") |}, Ok tt).
Proof.
  destruct (handleCreateFolder_effects None refusing_server EmptyString "new"
              fresh_world
              {| status := 404; statusText := "Not Found";
                 body := Parsed (JObj [("detail", JStr "Path not found")]) |})
    as [_ [_ [_ Hfail]]]; [discriminate|reflexivity|].
  exact (Hfail _ "Path not found" eq_refl eq_refl eq_refl).
Defined.

(** X15: what a rename leaves on the page.  A success sets the status line
    to the new name and reloads the current directory (not the target's);
    a refusal shows the server's [detail] and sends nothing more. *)
Theorem handleRename_effects (base : option string)
  (server : list http_request -> http_request -> fetch_result)
  (cp : string) (item : FileItem.t) (newName : string) (w : World) (r : Response) :
  let target :=
    Js.join "/" (removelast (segments (FileItem.path item)) ++ [newName])%list in
  newName <> EmptyString ->
  newName <> FileItem.name item ->
  server (sent w) (rename_request base (FileItem.path item) target) = Responded r ->
  (forall v,
     ok r = true -> body r = Parsed v ->
     handleRename base server cp item (Some newName) w
     = refresh base server cp None
         {| sent := (sent w ++ [rename_request base (FileItem.path item) target])%list;
            ui := with_status (ui w) (Some ("Renamed to " ++ quoted newName)) |}) /\
  (forall props d,
     ok r = false -> body r = Parsed (JObj props) ->
     Json.assoc "detail" props = Some (JStr d) ->
     handleRename base server cp item (Some newName) w
     = ({| sent := (sent w ++ [rename_request base (FileItem.path item) target])%list;
           ui := with_error (ui w) (Some d) |}, Ok tt)).
Proof.
  intros target Hne Hname Hr.
  assert (Ht : Js.truthy newName = true) by (destruct newName; [congruence|reflexivity]).
  unfold handleRename. rewrite Ht.
  apply String.eqb_neq in Hname. rewrite Hname. cbn [negb orb].
  unfold Js.pop. fold (segments (FileItem.path item)).
  rewrite rename_target by (auto using parent_segments_truthy).
  fold target. split.
  - intros v Hok Hb.
    rewrite (mutation_run base server _ _ cp w _ _ (renamePath_run base server _ _ w)).
    rewrite Hr, (settle_json_ok r v Hok Hb). reflexivity.
  - intros props d Hok Hb Hd.
    rewrite (mutation_run base server _ _ cp w _ _ (renamePath_run base server _ _ w)).
    rewrite Hr, (settle_json_detail r props d Hok Hb Hd). reflexivity.
Qed.

Lemma handleRename_effects_witness :
  AppState.status (ui (fst (handleRename None docs_server "docs" sample_item
                              (Some "b.txt") docs_world)))
    = Some ("Renamed to " ++ quoted "b.txt") /\
  sent (fst (handleRename None docs_server "docs" sample_item (Some "b.txt") docs_world))
    = [list_request None EmptyString; rename_request None "docs/a.txt" "docs/b.txt";
       list_request None "docs"].
Proof.
  destruct (handleRename_effects None docs_server "docs" sample_item "b.txt" docs_world
              {| status := 200; statusText := "OK";
                 body := Parsed (JObj [("ok", JBool true)]) |})
    as [Hok _]; [discriminate|discriminate|reflexivity|].
  rewrite (Hok _ eq_refl eq_refl). split; reflexivity.
Defined.

(** X16: dropping or choosing files.  An empty selection sends nothing and
    changes nothing.  Otherwise the files go to the current directory in
    one upload; a success sets the status line to "Upload complete" and
    reloads the current directory, and a refusal shows the server's
    [detail] in the error line and sends nothing more. *)
Theorem handleFiles_effects (base : option string)
  (server : list http_request -> http_request -> fetch_result)
  (cp : string) (files : upload_files) (w : World) (r : Response) :
  files_of files <> [] ->
  server (sent w) (upload_request base cp (files_of files)) = Responded r ->
  handleFiles base server cp (OfArray []) w = (w, Ok tt) /\
  handleFiles base server cp (OfFileList {| FileList_items := [] |}) w = (w, Ok tt) /\
  (forall v names,
     ok r = true -> body r = Parsed v ->
     from_json v = Some {| uploaded := names |} ->
     handleFiles base server cp files w
     = refresh base server cp None
         {| sent := (sent w ++ [upload_request base cp (files_of files)])%list;
            ui := with_status (ui w) (Some "Upload complete") |}) /\
  (forall props d,
     ok r = false -> body r = Parsed (JObj props) ->
     Json.assoc "detail" props = Some (JStr d) ->
     handleFiles base server cp files w
     = ({| sent := (sent w ++ [upload_request base cp (files_of files)])%list;
           ui := with_error (ui w) (Some d) |}, Ok tt)).
Proof.
  intros Hne Hr. split; [reflexivity|]. split; [reflexivity|].
  unfold handleFiles, handleUploadComplete, handleError.
  assert (Hlen : Nat.eqb match files with
                         | OfFileList fl => List.length (FileList_items fl)
                         | OfArray fs => List.length fs
                         end 0 = false).
  { destruct files as [[fl]|fs]; cbn [files_of FileList_items] in Hne;
      [destruct fl|destruct fs]; congruence || reflexivity. }
  rewrite Hlen. split.
  - intros v names Hok Hb Hv.
    rewrite (mutation_run base server _ _ cp w _ _ (uploadFiles_run base server _ _ w)).
    rewrite Hr. unfold settle. rewrite Hok, Hb, Hv. reflexivity.
  - intros props d Hok Hb Hd.
    rewrite (mutation_run base server _ _ cp w _ _ (uploadFiles_run base server _ _ w)).
    rewrite Hr. unfold settle. rewrite Hok.
    rewrite (failure_detail _ r props d Hb Hd). reflexivity.
Qed.

Lemma handleFiles_effects_witness :
  handleFiles None refusing_server EmptyString (OfArray sample_files) fresh_world
  = ({| sent := [upload_request None EmptyString sample_files];
        ui := with_error AppState.initial (Some "Path not found") |}, Ok tt).
Proof.
  destruct (handleFiles_effects None refusing_server EmptyString (OfArray sample_files)
              fresh_world
              {| status := 404; statusText := "Not Found";
                 body := Parsed (JObj [("detail", JStr "Path not found")]) |})
    as [_ [_ [_ Hfail]]]; [discriminate|reflexivity|].
  exact (Hfail _ "Path not found" eq_refl eq_refl eq_refl).
Defined.

(** X12: no handler of the page rejects.  With a server that honours the
    declared types every event resolves, and "Loading" is off after an
    event if it was off before.  Every error of an operation is caught and
    put in the error line: whatever error creating a folder, deleting,
    renaming, uploading or listing throws, the handler resolves with that
    error's message in the error line, and a failed mutation sends nothing
    more and changes nothing else. *)
Theorem dispatch_never_rejects (base : option string)
  (server : list http_request -> http_request -> fetch_result) :
  (typed_server base server ->
   forall ev w, snd (dispatch base server ev w) = Ok tt) /\
  (forall ev w,
     AppState.loading (ui w) = false ->
     AppState.loading (ui (fst (dispatch base server ev w))) = false) /\
  (forall cp name w e,
     name <> EmptyString ->
     snd (createFolder base server cp name w) = Throw e ->
     handleCreateFolder base server cp (Some name) w
     = ({| sent := (sent w ++ [folder_request base cp name])%list;
           ui := with_error (ui w) (Some (message_of e)) |}, Ok tt)) /\
  (forall cp item w e,
     snd (deletePath base server (FileItem.path item) w) = Throw e ->
     handleDelete base server cp item true w
     = ({| sent := (sent w ++ [delete_request base (FileItem.path item)])%list;
           ui := with_error (ui w) (Some (message_of e)) |}, Ok tt)) /\
  (forall cp item newName w e,
     newName <> EmptyString ->
     newName <> FileItem.name item ->
     let target :=
       Js.join "/" (removelast (segments (FileItem.path item)) ++ [newName])%list in
     snd (renamePath base server (FileItem.path item) target w) = Throw e ->
     handleRename base server cp item (Some newName) w
     = ({| sent := (sent w ++ [rename_request base (FileItem.path item) target])%list;
           ui := with_error (ui w) (Some (message_of e)) |}, Ok tt)) /\
  (forall cp files w e,
     files_of files <> [] ->
     snd (uploadFiles base server cp files w) = Throw e ->
     handleFiles base server cp files w
     = ({| sent := (sent w ++ [upload_request base cp (files_of files)])%list;
           ui := with_error (ui w) (Some (message_of e)) |}, Ok tt)) /\
  (forall cp path w e,
     snd (getDirectory base server
            match path with Some p => p | None => cp end w) = Throw e ->
     snd (refresh base server cp path w) = Ok tt /\
     AppState.error (ui (fst (refresh base server cp path w)))
       = Some (message_of e)).
Proof.
  split; [|split; [|split; [|split; [|split; [|split]]]]].
  - intros Hty ev w.
    destruct (settles_dispatch base server ev w) as [H|H]; [exact H|].
    exfalso. exact (sound_dispatch base server Hty ev w H).
  - intros ev w H.
    apply (keeps_dispatch base server (fun st => AppState.loading st = false));
      try exact H.
    + intros st s Hs. exact Hs.
    + intros st e Hs. exact Hs.
    + apply loading_off_after_refresh.
  - intros cp name w e Hne He. unfold handleCreateFolder.
    assert (Ht : Js.truthy name = true) by (destruct name; [congruence|reflexivity]).
    rewrite Ht. cbn [negb].
    rewrite (mutation_run base server _ _ cp w _ _ (createFolder_run base server _ _ w)).
    rewrite createFolder_run in He. cbn [snd] in He. rewrite He. reflexivity.
  - intros cp item w e He. unfold handleDelete. cbn [negb].
    rewrite (mutation_run base server _ _ cp w _ _ (deletePath_run base server _ w)).
    rewrite deletePath_run in He. cbn [snd] in He. rewrite He. reflexivity.
  - intros cp item newName w e Hne Hname target He.
    assert (Ht : Js.truthy newName = true)
      by (destruct newName; [congruence|reflexivity]).
    unfold handleRename. rewrite Ht.
    apply String.eqb_neq in Hname. rewrite Hname. cbn [negb orb].
    unfold Js.pop. fold (segments (FileItem.path item)).
    rewrite rename_target by (auto using parent_segments_truthy).
    fold target.
    rewrite (mutation_run base server _ _ cp w _ _ (renamePath_run base server _ _ w)).
    rewrite renamePath_run in He. cbn [snd] in He. rewrite He. reflexivity.
  - intros cp files w e Hne He.
    unfold handleFiles, handleUploadComplete, handleError.
    assert (Hlen : Nat.eqb match files with
                           | OfFileList fl => List.length (FileList_items fl)
                           | OfArray fs => List.length fs
                           end 0 = false).
    { destruct files as [[fl]|fs]; cbn [files_of FileList_items] in Hne;
        [destruct fl|destruct fs]; congruence || reflexivity. }
    rewrite Hlen.
    rewrite (mutation_run base server _ _ cp w _ _ (uploadFiles_run base server _ _ w)).
    rewrite uploadFiles_run in He. cbn [snd] in He. rewrite He. reflexivity.
  - intros cp path w e He. rewrite refresh_run. cbv zeta. cbn [fst snd ui].
    rewrite getDirectory_run in He. cbn [snd] in He. rewrite He.
    split; reflexivity.
Qed.

Lemma dispatch_never_rejects_witness :
  snd (dispatch None reports_server (ClickDelete 0 true) reports_world) = Ok tt /\
  handleDelete None unreachable_server "docs" sample_item true docs_world
  = ({| sent := (sent docs_world ++ [delete_request None "docs/a.txt"])%list;
        ui := with_error (ui docs_world) (Some "Failed to fetch") |}, Ok tt).
Proof.
  destruct (dispatch_never_rejects None reports_server) as [Hok _].
  destruct (dispatch_never_rejects None unreachable_server)
    as [_ [_ [_ [Hdelete _]]]].
  split.
  - exact (Hok reports_server_typed (ClickDelete 0 true) reports_world).
  - exact (Hdelete "docs" sample_item docs_world (TypeError "Failed to fetch") eq_refl).
Defined.

(** *** The requests of an event *)

Section Requests.

Variable base : option string.
Variable server : list http_request -> http_request -> fetch_result.

Lemma adds_nothing (cp : string) (w : World) : adds base cp (ret tt) w.
Proof. exists []. split; [symmetry; apply app_nil_r|left; reflexivity]. Qed.

Lemma adds_mutation {A : Type} (op : M A) (message cp : string) (w : World)
  (req : http_request) (o : outcome A) :
  op w = (record w req, o) ->
  adds base cp
    (try_catch
       (op ;; setStatus (Some message) ;; refresh base server cp None)
       (fun err => setError (Some (message_of err)))) w.
Proof.
  intros Hop. unfold adds. rewrite (mutation_run base server op message cp w req o Hop).
  destruct o as [a|e|].
  - exists [req; list_request base cp]. rewrite refresh_sent. cbn [sent].
    rewrite <- app_assoc. split; [reflexivity|]. right. right. eexists. reflexivity.
  - exists [req]. split; [reflexivity|]. right. left. eexists. reflexivity.
  - exists [req]. split; [reflexivity|]. right. left. eexists. reflexivity.
Qed.

Lemma adds_handlers (cp : string) (w : World) :
  (forall prompt, adds base cp (handleCreateFolder base server cp prompt) w) /\
  (forall item confirmed, adds base cp (handleDelete base server cp item confirmed) w) /\
  (forall item prompt, adds base cp (handleRename base server cp item prompt) w) /\
  (forall files, adds base cp (handleFiles base server cp files) w).
Proof.
  split; [|split; [|split]].
  - intros [name|]; unfold handleCreateFolder; [|apply adds_nothing].
    destruct (negb (Js.truthy name)); [apply adds_nothing|].
    eapply adds_mutation. apply createFolder_run.
  - intros item [|]; unfold handleDelete; cbn [negb]; [|apply adds_nothing].
    eapply adds_mutation. apply deletePath_run.
  - intros item [newName|]; unfold handleRename; [|apply adds_nothing].
    destruct (negb (Js.truthy newName) || String.eqb newName (FileItem.name item));
      [apply adds_nothing|].
    eapply adds_mutation. apply renamePath_run.
  - intros files. unfold handleFiles, handleUploadComplete, handleError.
    destruct (Nat.eqb _ 0); [apply adds_nothing|].
    eapply adds_mutation. apply uploadFiles_run.
Qed.

End Requests.

(** X17: an event adds at most two requests to those already sent, and a
    second one is always the reload of the current directory.  The events
    that only look (mount, refresh, root, breadcrumb, up, open folder) add
    at most one, a GET without a body. *)
Theorem dispatch_requests (base : option string)
  (server : list http_request -> http_request -> fetch_result)
  (ev : event) (w : World) :
  exists l : list http_request,
    sent (fst (dispatch base server ev w)) = (sent w ++ l)%list /\
    List.length l <= 2 /\
    (forall a b, l = [a; b] ->
       b = list_request base (AppState.currentPath (ui w))) /\
    (is_navigation ev = true ->
     List.length l <= 1 /\
     Forall (fun q => req_method q = GET /\ req_body q = None) l).
Proof.
  destruct (adds_handlers base server (AppState.currentPath (ui w)) w)
    as [Hcreate [Hdelete [Hrename Hfiles]]].
  assert (Hnothing : exists l : list http_request,
            sent w = (sent w ++ l)%list /\ List.length l <= 2 /\
            (forall a b, l = [a; b] ->
               b = list_request base (AppState.currentPath (ui w))) /\
            List.length l <= 1 /\
            Forall (fun q => req_method q = GET /\ req_body q = None) l).
  { exists []. split; [symmetry; apply app_nil_r|]. cbn. repeat split; try lia.
    - intros a b H. discriminate.
    - constructor. }
  assert (Hnav : forall path,
            exists l : list http_request,
              sent (fst (refresh base server (AppState.currentPath (ui w)) path w))
                = (sent w ++ l)%list /\ List.length l <= 2 /\
              (forall a b, l = [a; b] ->
                 b = list_request base (AppState.currentPath (ui w))) /\
              List.length l <= 1 /\
              Forall (fun q => req_method q = GET /\ req_body q = None) l).
  { intros path. eexists. split; [apply refresh_sent|]. cbn. repeat split; try lia.
    - intros a b H. discriminate.
    - constructor; [split; reflexivity|constructor]. }
  assert (Hmut : forall c : M unit,
            adds base (AppState.currentPath (ui w)) c w ->
            exists l : list http_request,
              sent (fst (c w)) = (sent w ++ l)%list /\ List.length l <= 2 /\
              (forall a b, l = [a; b] ->
                 b = list_request base (AppState.currentPath (ui w)))).
  { intros c [l [Hl Hshape]]. exists l. split; [exact Hl|].
    destruct Hshape as [-> | [[a ->] | [a ->]]]; cbn; split; try lia;
      intros x y H; try discriminate.
    injection H as _ <-. reflexivity. }
  destruct ev; unfold dispatch, navigateTo; cbn [is_navigation];
    repeat match goal with
           | |- context [if ?b then _ else _] => destruct b
           | |- context [match nth_error ?l ?i with _ => _ end] =>
               destruct (nth_error l i)
           end;
    try (destruct Hnothing as [l [H1 [H2 [H3 H4]]]]; exists l;
         split; [exact H1|]; split; [exact H2|]; split; [exact H3|];
         intros _; exact H4);
    try (unfold goUp;
         match goal with
         | |- context [refresh base server _ ?path w] =>
             destruct (Hnav path) as [l [H1 [H2 [H3 H4]]]]; exists l;
             split; [exact H1|]; split; [exact H2|]; split; [exact H3|];
             intros _; exact H4
         end);
    match goal with
    | |- context [fst (?c w)] =>
        destruct (Hmut c) as [l [H1 [H2 H3]]];
        [solve [apply Hcreate | apply Hdelete | apply Hrename | apply Hfiles]|];
        exists l; split; [exact H1|]; split; [exact H2|]; split; [exact H3|];
        intros H; discriminate
    end.
Qed.

(** *** The path line and the breadcrumbs *)

(** X18: the toolbar shows the current path in normal form: its non-empty
    segments joined by single slashes, whatever the root flag.  Normalizing
    twice changes nothing, and a path already in normal form is shown as it
    is. *)
Theorem Toolbar_path_line (cp : string) (root : bool) :
  path_line (Toolbar cp root) = "Path: /" ++ Js.join "/" (segments cp) /\
  segments (Js.join "/" (segments cp)) = segments cp /\
  (forall names,
     Forall (fun s => segment_ok s = true) names ->
     cp = Js.join "/" names ->
     path_line (Toolbar cp root) = "Path: /" ++ cp).
Proof.
  assert (Hline : path_line (Toolbar cp root) = "Path: /" ++ Js.join "/" (segments cp)).
  { unfold Toolbar; cbn [path_line].
    assert (Hc : (if Js.truthy cp then segments cp else []) = segments cp)
      by (destruct cp; reflexivity).
    rewrite Hc. destruct (Js.join "/" (segments cp)); reflexivity. }
  split; [exact Hline|]. split.
  - apply segments_join, segments_ok.
  - intros names Hnames ->. rewrite Hline, segments_join by assumption. reflexivity.
Qed.

Lemma Toolbar_path_line_witness :
  path_line (Toolbar "/docs//reports/" false) = "Path: /docs/reports" /\
  path_line (Toolbar "docs/reports" false) = "Path: /docs/reports".
Proof.
  split.
  - exact (proj1 (Toolbar_path_line "/docs//reports/" false)).
  - apply (proj2 (proj2 (Toolbar_path_line "docs/reports" false)) ["docs"; "reports"]).
    + repeat constructor.
    + reflexivity.
Defined.

Lemma map_map_index_from {A B C : Type} (g : B -> C) (f : A -> nat -> B)
  (xs : list A) (k : nat) :
  map g (map_index_from k f xs) = map_index_from k (fun x i => g (f x i)) xs.
Proof.
  revert k. induction xs as [|x rest IH]; intros k; [reflexivity|].
  cbn [map_index_from map]. rewrite IH. reflexivity.
Qed.

Lemma map_index_from_fst {A : Type} (xs : list A) (k : nat) :
  map_index_from k (fun x _ => x) xs = xs.
Proof.
  revert k. induction xs as [|x rest IH]; intros k; [reflexivity|].
  cbn [map_index_from]. rewrite IH. reflexivity.
Qed.

Lemma crumb_target_at (cp : string) (i : nat) :
  nth_error (map crumb_target (breadcrumbs cp)) i
  = option_map (fun _ => Js.join "/" (firstn (i + 1) (segments cp)))
      (nth_error (segments cp) i).
Proof.
  rewrite nth_error_map. unfold breadcrumbs, map_index.
  rewrite nth_error_map_index_from, crumbs_segments.
  destruct (nth_error (segments cp) i); reflexivity.
Qed.

(** X19: the breadcrumb bar.  The labels are the segments of the current
    path in order; the targets are pairwise different (they serve as list
    keys); and the last crumb leads to the current path in normal form. *)
Theorem breadcrumbs_shape (cp : string) :
  map crumb_label (breadcrumbs cp) = segments cp /\
  NoDup (map crumb_target (breadcrumbs cp)) /\
  (segments cp <> [] ->
   nth_error (map crumb_target (breadcrumbs cp)) (List.length (segments cp) - 1)
   = Some (Js.join "/" (segments cp))).
Proof.
  split; [|split].
  - unfold breadcrumbs, map_index. rewrite map_map_index_from. cbn [crumb_label].
    rewrite map_index_from_fst. apply crumbs_segments.
  - apply NoDup_nth_error. intros i j Hi Heq.
    rewrite !crumb_target_at in Heq.
    destruct (nth_error (segments cp) i) as [si|] eqn:Hsi.
    + destruct (nth_error (segments cp) j) as [sj|] eqn:Hsj; [|discriminate].
      cbn [option_map] in Heq. injection Heq as Heq.
      apply (f_equal segments) in Heq.
      rewrite !segments_join in Heq
        by (apply firstn_Forall, segments_ok).
      apply (f_equal (@List.length string)) in Heq.
      rewrite !length_firstn in Heq.
      assert (i < List.length (segments cp)) by (apply nth_error_Some; congruence).
      assert (j < List.length (segments cp)) by (apply nth_error_Some; congruence).
      lia.
    + exfalso. apply nth_error_None in Hsi.
      assert (Hlen : List.length (map crumb_target (breadcrumbs cp))
                     <= List.length (segments cp)).
      { rewrite length_map. unfold breadcrumbs, map_index.
        rewrite <- (length_map crumb_label), map_map_index_from. cbn [crumb_label].
        rewrite map_index_from_fst, crumbs_segments. lia. }
      lia.
  - intros Hne. rewrite crumb_target_at.
    destruct (segments cp) as [|s rest] eqn:Hs; [congruence|].
    assert (Hlast : List.length (s :: rest) - 1 < List.length (s :: rest))
      by (cbn; lia).
    apply nth_error_Some in Hlast.
    destruct (nth_error (s :: rest) (List.length (s :: rest) - 1)); [|congruence].
    cbn [option_map]. f_equal. f_equal.
    apply firstn_all2. cbn. lia.
Qed.

Lemma breadcrumbs_shape_witness :
  map crumb_target (breadcrumbs "/docs//reports/2024") =
    ["docs"; "docs/reports"; "docs/reports/2024"] /\
  nth_error (map crumb_target (breadcrumbs "/docs//reports/2024")) 2
    = Some "docs/reports/2024".
Proof.
  split; [reflexivity|].
  apply (proj2 (proj2 (breadcrumbs_shape "/docs//reports/2024"))).
  discriminate.
Defined.

(** X20: looking around never touches the status line: after mount,
    refresh, root, breadcrumb, up or open-folder it reads what it read
    before, whatever the server answered. *)
Theorem navigation_keeps_status (base : option string)
  (server : list http_request -> http_request -> fetch_result)
  (ev : event) (w : World) :
  is_navigation ev = true ->
  AppState.status (ui (fst (dispatch base server ev w))) = AppState.status (ui w).
Proof.
  intros Hnav.
  assert (Hrefresh : forall path,
            AppState.status
              (ui (fst (refresh base server (AppState.currentPath (ui w)) path w)))
            = AppState.status (ui w)).
  { intros path. rewrite refresh_run. cbn [fst ui].
    destruct (settle _ _); reflexivity. }
  destruct ev; try discriminate; unfold dispatch, navigateTo, goUp;
    repeat match goal with
           | |- context [if ?b then _ else _] => destruct b
           | |- context [match nth_error ?l ?i with _ => _ end] =>
               destruct (nth_error l i)
           end;
    first [ reflexivity | apply Hrefresh ].
Qed.

Lemma navigation_keeps_status_witness :
  AppState.status (ui (fst (dispatch None docs_server ClickUp docs_world))) = None.
Proof.
  exact (navigation_keeps_status None docs_server ClickUp docs_world eq_refl).
Defined.

(** *** The options of the install script *)

Lemma tr_lower_app (a b : string) :
  InstallScript.tr_lower (a ++ b)
  = InstallScript.tr_lower a ++ InstallScript.tr_lower b.
Proof.
  induction a as [|c a IH]; [reflexivity|].
  cbn [String.append InstallScript.tr_lower]. rewrite IH. reflexivity.
Qed.

Lemma echo_option_lower (m : string) :
  InstallScript.echo_option m = true ->
  exists rest, InstallScript.tr_lower m = String "-" rest.
Proof.
  destruct m as [|d [|c rest]]; try discriminate.
  cbn [InstallScript.echo_option]. intros H.
  apply andb_true_iff in H. destruct H as [Hd _].
  apply Ascii.eqb_eq in Hd. subst d. eexists. reflexivity.
Qed.

Lemma strip_newline_snoc (s : string) :
  InstallScript.strip_trailing_newlines (s ++ String InstallScript.newline EmptyString)
  = InstallScript.strip_trailing_newlines s.
Proof.
  induction s as [|c s IH]; [reflexivity|].
  cbn [String.append InstallScript.strip_trailing_newlines]. rewrite IH. reflexivity.
Qed.

(** The lowered mode of a word that is none of [echo]'s options. *)
Lemma lower_mode_plain (m : string) :
  InstallScript.echo_option m = false ->
  InstallScript.FRONTEND_MODE_LOWER m
  = InstallScript.strip_trailing_newlines (InstallScript.tr_lower m).
Proof.
  intros H. unfold InstallScript.FRONTEND_MODE_LOWER, InstallScript.echo.
  rewrite H, tr_lower_app. apply strip_newline_snoc.
Qed.

Lemma lower_mode_option (m : string) :
  InstallScript.echo_option m = true ->
  InstallScript.FRONTEND_MODE_LOWER m = EmptyString.
Proof.
  intros H. unfold InstallScript.FRONTEND_MODE_LOWER, InstallScript.echo.
  rewrite H. destruct (Js.occurs "n" m); reflexivity.
Qed.

(** X21: the two spellings of the frontend option agree for a non-empty
    mode: [--frontend MODE] and [--frontend=MODE] leave the loop in the
    same state, and the word after [--frontend] is taken as the mode even
    when it looks like an option.  They differ for the empty mode: the
    first falls back to [static], the second keeps the empty mode. *)
Theorem frontend_option_spellings (m0 mode : string) (rest : list string) :
  mode <> EmptyString ->
  InstallScript.parse_args m0 ("--frontend" :: mode :: rest)
    = InstallScript.parse_args m0 (("--frontend=" ++ mode) :: rest) /\
  InstallScript.parse_args m0 ("--frontend" :: mode :: rest)
    = InstallScript.parse_args mode rest /\
  InstallScript.parse_args m0 ("--frontend" :: EmptyString :: rest)
    = InstallScript.parse_args "static" rest /\
  InstallScript.parse_args m0 ["--frontend="] = InstallScript.Proceed EmptyString.
Proof.
  intros Hne.
  assert (Hm : String.eqb mode EmptyString = false) by (apply String.eqb_neq; exact Hne).
  assert (Hfirst : InstallScript.parse_args m0 ("--frontend" :: mode :: rest)
                   = InstallScript.parse_args mode rest).
  { cbn [InstallScript.parse_args]. rewrite String.eqb_refl, Hm. reflexivity. }
  split; [|split; [exact Hfirst|split; reflexivity]].
  rewrite Hfirst. cbn [InstallScript.parse_args].
  assert (Hneq : String.eqb ("--frontend=" ++ mode) "--frontend" = false).
  { apply String.eqb_neq. intros H. apply (f_equal String.length) in H.
    cbn in H. discriminate. }
  assert (Hp : String.prefix "--frontend=" ("--frontend=" ++ mode) = true)
    by (destruct mode; reflexivity).
  assert (Hs : InstallScript.strip_to_equals ("--frontend=" ++ mode) = mode)
    by reflexivity.
  rewrite Hneq, Hp, Hs. reflexivity.
Qed.

Lemma frontend_option_spellings_witness :
  InstallScript.options ["--frontend"; "--help"] = InstallScript.Proceed "--help" /\
  InstallScript.options ["--frontend=--help"] = InstallScript.Proceed "--help".
Proof.
  destruct (frontend_option_spellings "static" "--help" []) as [H1 [H2 _]];
    [discriminate|].
  split.
  - exact H2.
  - exact (eq_trans (eq_sym H1) H2).
Defined.

(** X22: the frontend mode is matched without regard to case: any
    spelling of [static], [dev] and [none] selects that branch, and the
    empty mode selects "none".  A mode that [echo] takes for one of its own
    options ([-n], [-e], [-E] and their combinations) is printed as nothing
    and so selects "none" as well. *)
Theorem frontend_mode_classification (mode : string) :
  (InstallScript.tr_lower mode = "static" ->
   InstallScript.frontend_of mode = InstallScript.Static) /\
  (InstallScript.tr_lower mode = "dev" ->
   InstallScript.frontend_of mode = InstallScript.Dev) /\
  (InstallScript.tr_lower mode = "none" ->
   InstallScript.frontend_of mode = InstallScript.NoFrontend) /\
  (mode = EmptyString \/ InstallScript.echo_option mode = true ->
   InstallScript.frontend_of mode = InstallScript.NoFrontend).
Proof.
  assert (Hplain : forall word,
            InstallScript.tr_lower mode = word ->
            (forall rest, word <> String "-" rest) ->
            InstallScript.FRONTEND_MODE_LOWER mode
            = InstallScript.strip_trailing_newlines word).
  { intros word Hw Hdash. rewrite lower_mode_plain; [rewrite Hw; reflexivity|].
    destruct (InstallScript.echo_option mode) eqn:E; [|reflexivity].
    apply echo_option_lower in E. destruct E as [rest E].
    rewrite Hw in E. exfalso. exact (Hdash rest E). }
  unfold InstallScript.frontend_of.
  split; [|split; [|split]].
  - intros H. rewrite (Hplain _ H) by (intros rest; discriminate). reflexivity.
  - intros H. rewrite (Hplain _ H) by (intros rest; discriminate). reflexivity.
  - intros H. rewrite (Hplain _ H) by (intros rest; discriminate). reflexivity.
  - intros [-> | H]; [reflexivity|]. rewrite (lower_mode_option mode H). reflexivity.
Qed.

Lemma frontend_mode_classification_witness :
  InstallScript.frontend_of "DeV" = InstallScript.Dev /\
  InstallScript.frontend_of "-n" = InstallScript.NoFrontend.
Proof.
  split.
  - exact (proj1 (proj2 (frontend_mode_classification "DeV")) eq_refl).
  - apply (proj2 (proj2 (proj2 (frontend_mode_classification "-n")))).
    right. reflexivity.
Defined.
